(** * Shadow poisoning primitives of compiler-rt/lib/asan/asan_poisoning.h

    A shallow embedding of [FastPoisonShadow] and
    [FastPoisonShadowPartialRightRedzone] (the non-Fuchsia build), with the
    machine arithmetic of the C++ source written out, and the properties of
    the shadow encoding proved about it.

    Conventions of the embedding:
    - [uptr] is the 64-bit unsigned word of an LP64 target, a [Z] reduced
      modulo [2^64] after every operation;
    - [int] is the 32-bit signed integer; the literal [1] of [1 << i] has
      this type, so the shift is an [int] shift;
    - [u8] is a [Z] reduced modulo 256;
    - shadow memory is a total map from addresses to bytes, and [memset] and
      single byte stores update it. *)

From Stdlib Require Import ZArith Lia List Bool.
Import ListNotations.
Local Open Scope Z_scope.

(** ** Machine integers *)

Definition uptr_modulus : Z := 18446744073709551616.

(** Reduction of a mathematical integer to [uptr]. *)
Definition wrap (x : Z) : Z := x mod uptr_modulus.

(** Conversion to [u8] (also the [int] to [unsigned char] conversion that
    [memset] applies to its fill value). *)
Definition to_u8 (x : Z) : Z := x mod 256.

(** Value of a 32-bit pattern read as a signed [int]. *)
Definition int_of_bits (x : Z) : Z :=
  if x mod 4294967296 <? 2147483648
  then x mod 4294967296
  else x mod 4294967296 - 4294967296.

(** [x << n] on a non-negative [int] [x]: defined when the count is below the
    width and the result fits the corresponding unsigned type, in which case
    it is that value converted back to [int]; undefined otherwise. *)
Definition shl_int (x n : Z) : option Z :=
  if (0 <=? n) && (n <? 32) && (x * 2 ^ n <? 4294967296)
  then Some (int_of_bits (x * 2 ^ n))
  else None.

(** Usual arithmetic conversion of an [int] operand to [uptr]. *)
Definition int_to_uptr (x : Z) : Z := wrap x.

(** ** Shadow memory *)

Definition shadow_mem : Type := Z -> Z.

(** [*p = v] through an [unsigned char *]. *)
Definition store (m : shadow_mem) (p v : Z) : shadow_mem :=
  fun a => if wrap (a - p) =? 0 then to_u8 v else m a.

(** [REAL(memset)((void* )p, c, n)]: the [n] bytes from [p] receive [c]
    converted to [unsigned char]. *)
Definition memset (m : shadow_mem) (p c n : Z) : shadow_mem :=
  fun a => if wrap (a - p) <? n then to_u8 c else m a.

(** The [n] bytes found from address [p] upwards, low address first. *)
Definition read_bytes (m : shadow_mem) (p : Z) (n : nat) : list Z :=
  map (fun k => m (wrap (p + Z.of_nat k))) (seq 0 n).

(** Two shadow memories holding the same byte everywhere. *)
Definition mem_eq (m1 m2 : shadow_mem) : Prop := forall a, m1 a = m2 a.

(** ** Build configuration and runtime state *)

(** What the header takes from the rest of the runtime: the shadow mapping
    constants of asan_mapping.h, the debug switch of the sanitizer's
    internal definitions and the [poison_partial] runtime flag. *)
Record config : Type := {
  ASAN_SHADOW_SCALE : Z;
  ASAN_SHADOW_OFFSET : Z;
  SANITIZER_DEBUG : bool;
  poison_partial : bool
}.

(** The process state the two functions read and write: the poisoning toggle
    behind [SetCanPoisonMemory]/[CanPoisonMemory] and the shadow bytes. *)
Record state : Type := {
  can_poison_memory : bool;
  shadow : shadow_mem
}.

Definition SetCanPoisonMemory (st : state) (value : bool) : state :=
  {| can_poison_memory := value; shadow := shadow st |}.

Definition CanPoisonMemory (st : state) : bool := can_poison_memory st.

Definition set_shadow (st : state) (m : shadow_mem) : state :=
  {| can_poison_memory := can_poison_memory st; shadow := m |}.

(** How a computation ends: normally with a value, in a failed check, in
    behaviour the language leaves undefined, or not within the step budget
    given to a loop of the model. *)
Inductive result (A : Type) : Type :=
| Done (a : A)
| Abort
| Undefined
| OutOfFuel.

Arguments Done {A} a.
Arguments Abort {A}.
Arguments Undefined {A}.
Arguments OutOfFuel {A}.

Definition bind {A B : Type} (r : result A) (k : A -> result B) : result B :=
  match r with
  | Done a => k a
  | Abort => Abort
  | Undefined => Undefined
  | OutOfFuel => OutOfFuel
  end.

Notation "x <- r ;; k" := (bind r (fun x => k))
  (at level 61, r at next level, right associativity).

(** A call of one of the two functions ends in a [result state]. *)
Definition outcome : Type := result state.

(** Outcomes that agree: the same kind of ending and, for normal endings, the
    same toggle and the same shadow bytes. *)
Definition outcome_eq (o1 o2 : outcome) : Prop :=
  match o1, o2 with
  | Done s1, Done s2 =>
      can_poison_memory s1 = can_poison_memory s2 /\ mem_eq (shadow s1) (shadow s2)
  | Abort, Abort => True
  | Undefined, Undefined => True
  | OutOfFuel, OutOfFuel => True
  | _, _ => False
  end.

Section Poisoning.

Variable cfg : config.

(** [ASAN_SHADOW_GRANULARITY], [1ULL << ASAN_SHADOW_SCALE]. *)
Definition ASAN_SHADOW_GRANULARITY : Z := wrap (Z.shiftl 1 (ASAN_SHADOW_SCALE cfg)).

(** Modelled from the spec: asan_mapping.h is not among the sources. The
    address translator maps an application address to its shadow address at
    the fixed ratio of the granule size, displaced by a constant:
    [(mem >> ASAN_SHADOW_SCALE) + ASAN_SHADOW_OFFSET] in [uptr] arithmetic. *)
Definition MEM_TO_SHADOW (mem : Z) : Z :=
  wrap (Z.shiftr mem (ASAN_SHADOW_SCALE cfg) + ASAN_SHADOW_OFFSET cfg).

(** Modelled from the spec: the [DCHECK] macro is not among the sources. A
    violated check is fatal in debug/assertion builds; in optimized builds
    the condition is not evaluated and execution proceeds. *)
Definition DCHECK (cond : bool) (k : outcome) : outcome :=
  if SANITIZER_DEBUG cfg && negb cond then Abort else k.

(** *** FastPoisonShadow *)

(** The [switch (N)] of the zero branch: the fixed pattern stored through
    [p = shadow_end], in the order of the source. *)
Definition tail_pattern (m : shadow_mem) (p N : Z) : shadow_mem :=
  match N with
  | 0 => m
  | 1 => store m (wrap (p - 1)) 64
  | 2 => store (store m (wrap (p - 2)) 63) (wrap (p - 1)) 64
  | 3 => store (store (store m (wrap (p - 3)) 63) (wrap (p - 2)) 63) (wrap (p - 1)) 64
  | 4 => store (store (store (store m (wrap (p - 4)) 62) (wrap (p - 3)) 63)
                 (wrap (p - 2)) 63) (wrap (p - 1)) 64
  | 5 => store (store (store (store (store m (wrap (p - 5)) 62) (wrap (p - 4)) 62)
                 (wrap (p - 3)) 63) (wrap (p - 2)) 63) (wrap (p - 1)) 64
  | 6 => store (store (store (store (store (store m (wrap (p - 6)) 62)
                 (wrap (p - 5)) 62) (wrap (p - 4)) 62)
                 (wrap (p - 3)) 63) (wrap (p - 2)) 63) (wrap (p - 1)) 64
  | _ => store (store (store (store (store (store (store m (wrap (p - 7)) 62)
                 (wrap (p - 6)) 62) (wrap (p - 5)) 62) (wrap (p - 4)) 62)
                 (wrap (p - 3)) 63) (wrap (p - 2)) 63) (wrap (p - 1)) 64
  end.

(** One pass through the body of [for (uptr i = 3; ; ++i)]: it leaves the
    loop, goes round again, or hits an undefined shift. *)
Inductive step_result : Type :=
| Break (m : shadow_mem)
| Continue (m : shadow_mem)
| StepUndefined.

Definition fill_step (m : shadow_mem) (shadow_beg shadow_end i : Z) : step_result :=
  match shl_int 1 (wrap (i + 1)) with
  | None => StepUndefined
  | Some s1 =>
      let bBegin := wrap (wrap (shadow_end - int_to_uptr s1) + 1) in
      if bBegin <=? shadow_beg then
        match shl_int 1 i with
        | None => StepUndefined
        | Some s0 =>
            let bEnd := wrap (wrap (shadow_end - int_to_uptr s0) + 1) in
            Break (memset m shadow_beg (wrap (64 - i)) (wrap (bEnd - shadow_beg)))
        end
      else
        match shl_int 1 i with
        | None => StepUndefined
        | Some s0 => Continue (memset m bBegin (wrap (64 - i)) (int_to_uptr s0))
        end
  end.

(** The loop itself; [fuel] bounds the number of passes. *)
Fixpoint fill_loop (fuel : nat) (m : shadow_mem) (shadow_beg shadow_end i : Z)
  : result shadow_mem :=
  match fuel with
  | O => OutOfFuel
  | S fuel' =>
      match fill_step m shadow_beg shadow_end i with
      | StepUndefined => Undefined
      | Break m' => Done m'
      | Continue m' => fill_loop fuel' m' shadow_beg shadow_end (wrap (i + 1))
      end
  end.

(** No run of the loop makes more passes than this: the pass with [i = 31]
    shifts an [int] by 32. *)
Definition fill_loop_budget : nat := 32.

Definition FastPoisonShadow (st : state) (aligned_beg aligned_size value : Z) : outcome :=
  DCHECK ((value =? 0) || CanPoisonMemory st)
    (let shadow_beg := MEM_TO_SHADOW aligned_beg in
     let shadow_end :=
       wrap (MEM_TO_SHADOW
               (wrap (wrap (aligned_beg + aligned_size) - ASAN_SHADOW_GRANULARITY)) + 1) in
     if negb (value =? 0) then
       let value := if value <=? 7 then to_u8 (72 - value) else value in
       Done (set_shadow st
               (memset (shadow st) shadow_beg value (wrap (shadow_end - shadow_beg))))
     else
       let p := shadow_end in
       let N := wrap (shadow_end - shadow_beg) in
       let m1 := tail_pattern (shadow st) p N in
       if 8 <=? N then
         m2 <- fill_loop fill_loop_budget m1 shadow_beg shadow_end 3 ;;
         Done (set_shadow st m2)
       else Done (set_shadow st m1)).

(** *** FastPoisonShadowPartialRightRedzone *)

(** The byte the loop body stores for the granule at offset [i]. *)
Definition redzone_byte (i size value : Z) : Z :=
  if wrap (i + ASAN_SHADOW_GRANULARITY) <=? size then 0
  else if size <=? i then
    (if ASAN_SHADOW_GRANULARITY =? 128 then 255 else value)
  else
    (if poison_partial cfg
     then wrap (ASAN_SHADOW_GRANULARITY
                - Z.land size (wrap (ASAN_SHADOW_GRANULARITY - 1)))
     else 0).

(** [for (uptr i = 0; i < redzone_size; i += ASAN_SHADOW_GRANULARITY, shadow++)],
    entered with the current [i] and [shadow] pointer. *)
Fixpoint redzone_loop (fuel : nat) (m : shadow_mem) (shadow_ptr i size redzone_size value : Z)
  : result shadow_mem :=
  if i <? redzone_size then
    match fuel with
    | O => OutOfFuel
    | S fuel' =>
        redzone_loop fuel' (store m shadow_ptr (redzone_byte i size value))
                     (wrap (shadow_ptr + 1)) (wrap (i + ASAN_SHADOW_GRANULARITY))
                     size redzone_size value
    end
  else Done m.

Definition FastPoisonShadowPartialRightRedzone (fuel : nat) (st : state)
    (aligned_addr size redzone_size value : Z) : outcome :=
  DCHECK (CanPoisonMemory st)
    (m' <- redzone_loop fuel (shadow st) (MEM_TO_SHADOW aligned_addr) 0
                        size redzone_size value ;;
     Done (set_shadow st m')).

(** *** Preconditions of the fast versions *)

(** The shift count of the mapping fits the 64-bit word. *)
Definition mapping_ok : Prop := 0 <= ASAN_SHADOW_SCALE cfg < 64.

Definition granule_aligned (x : Z) : Prop := x mod ASAN_SHADOW_GRANULARITY = 0.

(** A range of application memory: [uptr] values, both granule-aligned, the
    range ending within the address space. *)
Definition aligned_range (beg size : Z) : Prop :=
  0 <= beg < uptr_modulus /\ 0 <= size < uptr_modulus /\
  beg + size <= uptr_modulus /\
  granule_aligned beg /\ granule_aligned size.

(** Number of shadow bytes of a range of [size] bytes. *)
Definition granules (size : Z) : Z := size / ASAN_SHADOW_GRANULARITY.

(** The shadow bytes of the range do not run over the top of the address
    space, and there are at least as many addresses below them as the range
    has granules (so a doubling block that overshoots the range start still
    starts at a non-negative address). *)
Definition shadow_span_ok (beg size : Z) : Prop :=
  MEM_TO_SHADOW beg + granules size < uptr_modulus /\
  granules size <= MEM_TO_SHADOW beg.

(** The check at the head of a function passes in this state. *)
Definition check_passes (cond : bool) : Prop :=
  SANITIZER_DEBUG cfg = false \/ cond = true.

End Poisoning.

(** ** Notions used in the statements *)

(** The byte the zero branch leaves at distance [d >= 1] below [shadow_end]. *)
Definition gradient (d : Z) : Z := 64 - Z.log2 d.

(** The memory after the first [n] passes of the loop, when each of them goes
    round again. *)
Fixpoint fill_passes (n : nat) (m : shadow_mem) (shadow_beg shadow_end i : Z)
  : option shadow_mem :=
  match n with
  | O => Some m
  | S n' =>
      match fill_step m shadow_beg shadow_end i with
      | Continue m' => fill_passes n' m' shadow_beg shadow_end (wrap (i + 1))
      | _ => None
      end
  end.

(** A state whose shadow is poisoned throughout with the heap redzone magic
    [0xfa]. *)
Definition poisoned_state : state :=
  {| can_poison_memory := true; shadow := fun _ => 250 |}.

(** A memory transformer that only overwrites: at each address it either
    stores a byte fixed in advance or keeps the old one. *)
Definition overwrites (f : shadow_mem -> shadow_mem) : Prop :=
  exists mask : Z -> option Z,
    forall m a, f m a = match mask a with Some v => v | None => m a end.

(** A computation on the shadow whose way of ending does not depend on the
    bytes it starts from and which, when it ends normally, only overwrites. *)
Definition oblivious (F : shadow_mem -> result shadow_mem) : Prop :=
  (exists f, overwrites f /\ forall m, F m = Done (f m)) \/
  (forall m, F m = Abort) \/ (forall m, F m = Undefined) \/ (forall m, F m = OutOfFuel).

(** What FastPoisonShadow does to the shadow, apart from its check. *)
Definition poison_writes (cfg : config) (aligned_beg aligned_size value : Z)
    (m : shadow_mem) : result shadow_mem :=
  let shadow_beg := MEM_TO_SHADOW cfg aligned_beg in
  let shadow_end :=
    wrap (MEM_TO_SHADOW cfg
            (wrap (wrap (aligned_beg + aligned_size) - ASAN_SHADOW_GRANULARITY cfg)) + 1) in
  if negb (value =? 0) then
    Done (memset m shadow_beg (if value <=? 7 then to_u8 (72 - value) else value)
                 (wrap (shadow_end - shadow_beg)))
  else
    if 8 <=? wrap (shadow_end - shadow_beg) then
      fill_loop fill_loop_budget
                (tail_pattern m shadow_end (wrap (shadow_end - shadow_beg)))
                shadow_beg shadow_end 3
    else Done (tail_pattern m shadow_end (wrap (shadow_end - shadow_beg))).

(** The byte of the granule at offset [i], in the words of the three cases:
    wholly live, wholly redzone, straddling the end of the live bytes. *)
Definition redzone_class (cfg : config) (i size value : Z) : Z :=
  if i + ASAN_SHADOW_GRANULARITY cfg <=? size then 0
  else if size <=? i then
    (if ASAN_SHADOW_GRANULARITY cfg =? 128 then 255 else value)
  else
    (if poison_partial cfg
     then ASAN_SHADOW_GRANULARITY cfg - size mod ASAN_SHADOW_GRANULARITY cfg
     else 0).

(** The byte FastPoisonShadow leaves, for a fill value, in the shadow byte at
    distance [d >= 1] below [shadow_end]: the gradient for value 0, the value
    moved to [72 - value] for values up to 7, the value itself otherwise. *)
Definition stored_byte (value d : Z) : Z :=
  if value =? 0 then 64 - Z.log2 d
  else if value <=? 7 then 72 - value else value.

(** A memory that differs from [m0] only in bytes within [[lo, hi]]. *)
Definition kept_or_within (lo hi : Z) (m0 m : shadow_mem) : Prop :=
  forall a, m a = m0 a \/ lo <= m a <= hi.

(** The same configuration built with or without the debug checks. *)
Definition with_debug (cfg : config) (debug : bool) : config :=
  {| ASAN_SHADOW_SCALE := ASAN_SHADOW_SCALE cfg;
     ASAN_SHADOW_OFFSET := ASAN_SHADOW_OFFSET cfg;
     SANITIZER_DEBUG := debug;
     poison_partial := poison_partial cfg |}.

(** ** Sample configurations and states *)

(** The x86-64 Linux mapping: granules of 8 bytes, shadow displaced by
    [0x7fff8000]. *)
Definition linux_x86_64 (debug partial : bool) : config :=
  {| ASAN_SHADOW_SCALE := 3; ASAN_SHADOW_OFFSET := 2147450880;
     SANITIZER_DEBUG := debug; poison_partial := partial |}.

(** An address in the allocator's region ([0x602000000000]) and one in the
    region of large mappings ([0x7f0000000000]). *)
Definition heap_addr : Z := 105690555219968.
Definition mmap_addr : Z := 139637976727552.

Definition clean_state : state :=
  {| can_poison_memory := true; shadow := fun _ => 0 |}.

(** The bytes a normally ended call leaves from [p] upwards. *)
Definition shadow_after (o : outcome) (p : Z) (n : nat) : option (list Z) :=
  match o with
  | Done st => Some (read_bytes (shadow st) p n)
  | _ => None
  end.

(** ** Sample runs, checked *)

Example FastPoisonShadow_20_granules :
  shadow_after (FastPoisonShadow (linux_x86_64 true true) clean_state heap_addr 160 0)
               (MEM_TO_SHADOW (linux_x86_64 true true) heap_addr - 1) 22
  = Some [0; 60; 60; 60; 60; 60; 61; 61; 61; 61; 61; 61; 61; 61;
          62; 62; 62; 62; 63; 63; 64; 0].
Proof. vm_compute. reflexivity. Qed.

Example FastPoisonShadow_tag_5 :
  shadow_after (FastPoisonShadow (linux_x86_64 true true) clean_state heap_addr 24 5)
               (MEM_TO_SHADOW (linux_x86_64 true true) heap_addr - 1) 5
  = Some [0; 67; 67; 67; 0].
Proof. vm_compute. reflexivity. Qed.

Example PartialRightRedzone_13_of_29 :
  shadow_after (FastPoisonShadowPartialRightRedzone (linux_x86_64 true true) 4
                  clean_state heap_addr 13 29 250)
               (MEM_TO_SHADOW (linux_x86_64 true true) heap_addr - 1) 6
  = Some [0; 0; 3; 250; 250; 0].
Proof. vm_compute. reflexivity. Qed.

(** ** Machine arithmetic *)

Ltac unwrap :=
  unfold wrap, to_u8, uptr_modulus in *; Z.div_mod_to_equations; lia.

Lemma wrap_range (x : Z) : 0 <= wrap x < uptr_modulus.
Proof. unwrap. Qed.

Lemma wrap_small (x : Z) : 0 <= x < uptr_modulus -> wrap x = x.
Proof. intros H. unfold wrap. apply Z.mod_small. exact H. Qed.

Lemma wrap_idem (x : Z) : wrap (wrap x) = wrap x.
Proof. apply wrap_small, wrap_range. Qed.

Lemma wrap_wrap_add (x y : Z) : wrap (wrap x + y) = wrap (x + y).
Proof. unfold wrap. rewrite Zplus_mod_idemp_l. reflexivity. Qed.

Lemma wrap_wrap_sub_l (x y : Z) : wrap (wrap x - y) = wrap (x - y).
Proof. unfold wrap. rewrite Zminus_mod_idemp_l. reflexivity. Qed.

Lemma wrap_wrap_sub_r (x y : Z) : wrap (x - wrap y) = wrap (x - y).
Proof. unfold wrap. rewrite Zminus_mod_idemp_r. reflexivity. Qed.

Lemma wrap_shift (x k : Z) : wrap (x + k * uptr_modulus) = wrap x.
Proof. unfold wrap. apply Z_mod_plus_full. Qed.

Lemma to_u8_small (x : Z) : 0 <= x < 256 -> to_u8 x = x.
Proof. intros H. unfold to_u8. apply Z.mod_small. exact H. Qed.

Lemma to_u8_wrap (x : Z) : to_u8 (wrap x) = to_u8 x.
Proof. unwrap. Qed.

Lemma pow2_pos (n : Z) : 0 <= n -> 0 < 2 ^ n.
Proof. intros H. apply Z.pow_pos_nonneg; lia. Qed.

Lemma pow2_le (a b : Z) : 0 <= a <= b -> 2 ^ a <= 2 ^ b.
Proof. intros H. apply Z.pow_le_mono_r; lia. Qed.

Lemma pow2_succ (n : Z) : 0 <= n -> 2 ^ (n + 1) = 2 * 2 ^ n.
Proof. intros H. rewrite Z.pow_add_r by lia. change (2 ^ 1) with 2. lia. Qed.

(** [1 << n] on [int] for the counts that keep the result positive. *)
Lemma shl_int_one (n : Z) : 0 <= n <= 30 -> shl_int 1 n = Some (2 ^ n).
Proof.
  intros H. unfold shl_int.
  assert (Hp : 0 < 2 ^ n) by (apply pow2_pos; lia).
  assert (Hq : 2 ^ n <= 2 ^ 30) by (apply pow2_le; lia).
  change (2 ^ 30) with 1073741824 in Hq.
  rewrite Z.mul_1_l.
  replace (0 <=? n) with true by (symmetry; apply Z.leb_le; lia).
  replace (n <? 32) with true by (symmetry; apply Z.ltb_lt; lia).
  replace (2 ^ n <? 4294967296) with true by (symmetry; apply Z.ltb_lt; lia).
  cbn [andb]. f_equal. unfold int_of_bits.
  rewrite Z.mod_small by lia.
  replace (2 ^ n <? 2147483648) with true by (symmetry; apply Z.ltb_lt; lia).
  reflexivity.
Qed.

(** [1 << 31] wraps to [INT_MIN]; [1 << 32] and beyond is undefined. *)
Lemma shl_int_one_31 : shl_int 1 31 = Some (-2147483648).
Proof. reflexivity. Qed.

Lemma shl_int_one_undefined (n : Z) : 32 <= n -> shl_int 1 n = None.
Proof.
  intros H. unfold shl_int.
  replace (n <? 32) with false by (symmetry; apply Z.ltb_ge; lia).
  rewrite andb_false_r. reflexivity.
Qed.

Lemma log2_band (i d : Z) : 0 <= i -> 2 ^ i <= d < 2 ^ (i + 1) -> Z.log2 d = i.
Proof. intros Hi Hd. apply Z.log2_unique; [exact Hi | rewrite <- Z.add_1_r; exact Hd]. Qed.

(** ** Geometry of the shadow of a range *)

Section Geometry.

Variable cfg : config.
Hypothesis Hmap : mapping_ok cfg.

Let G := ASAN_SHADOW_GRANULARITY cfg.

Lemma granularity_pow2 : ASAN_SHADOW_GRANULARITY cfg = 2 ^ ASAN_SHADOW_SCALE cfg.
Proof.
  unfold ASAN_SHADOW_GRANULARITY. rewrite Z.shiftl_1_l.
  apply wrap_small. split.
  - apply Z.lt_le_incl, pow2_pos. apply Hmap.
  - assert (H : 2 ^ ASAN_SHADOW_SCALE cfg <= 2 ^ 63) by (apply pow2_le; unfold mapping_ok in Hmap; lia).
    change (2 ^ 63) with 9223372036854775808 in H. unfold uptr_modulus. lia.
Qed.

Lemma granularity_bounds : 0 < G <= 9223372036854775808.
Proof.
  unfold G. rewrite granularity_pow2. split.
  - apply pow2_pos. apply Hmap.
  - change 9223372036854775808 with (2 ^ 63). apply pow2_le.
    unfold mapping_ok in Hmap; lia.
Qed.

Lemma MEM_TO_SHADOW_div (x : Z) :
  MEM_TO_SHADOW cfg x = wrap (x / G + ASAN_SHADOW_OFFSET cfg).
Proof.
  unfold MEM_TO_SHADOW, G. rewrite granularity_pow2.
  rewrite Z.shiftr_div_pow2 by apply Hmap. reflexivity.
Qed.

Lemma aligned_multiple (x : Z) : granule_aligned cfg x -> x = G * (x / G).
Proof.
  intros H. apply Z.div_exact; [pose proof granularity_bounds; lia | exact H].
Qed.

(** The two ends of the shadow of a range, as the function computes them. *)
Lemma shadow_end_eq (beg size : Z) :
  aligned_range cfg beg size -> G <= beg + size ->
  wrap (MEM_TO_SHADOW cfg (wrap (wrap (beg + size) - G)) + 1)
  = wrap (MEM_TO_SHADOW cfg beg + granules cfg size).
Proof.
  intros (Hb & Hs & Hfit & Hab & Has) Hne.
  pose proof granularity_bounds as HG.
  rewrite wrap_wrap_sub_l.
  rewrite (wrap_small (beg + size - G)) by lia.
  rewrite !MEM_TO_SHADOW_div. unfold granules. fold G.
  rewrite !wrap_wrap_add.
  pose proof (aligned_multiple beg Hab) as Eb.
  pose proof (aligned_multiple size Has) as Es.
  set (b := beg / G) in *. set (n := size / G) in *.
  replace (beg + size - G) with ((b + n - 1) * G) by lia.
  rewrite Z.div_mul by lia.
  f_equal. lia.
Qed.

Lemma granules_range (size : Z) :
  0 <= size < uptr_modulus -> 0 <= granules cfg size < uptr_modulus.
Proof.
  intros Hs. pose proof granularity_bounds as HG. unfold granules. fold G. split.
  - apply Z.div_pos; lia.
  - apply Z.le_lt_trans with size; [|lia].
    apply Z.div_le_upper_bound; [lia|]. nia.
Qed.

Lemma shadow_length_eq (beg size : Z) :
  aligned_range cfg beg size -> G <= beg + size ->
  wrap (wrap (MEM_TO_SHADOW cfg (wrap (wrap (beg + size) - G)) + 1)
        - MEM_TO_SHADOW cfg beg)
  = granules cfg size.
Proof.
  intros Hr Hne. rewrite shadow_end_eq by assumption.
  rewrite wrap_wrap_sub_l.
  replace (MEM_TO_SHADOW cfg beg + granules cfg size - MEM_TO_SHADOW cfg beg)
    with (granules cfg size) by lia.
  apply wrap_small, granules_range. apply Hr.
Qed.

(** An address inside the range has its shadow byte inside the shadow of the
    range. *)
Lemma shadow_of_member (beg size x : Z) :
  aligned_range cfg beg size -> beg <= x < beg + size ->
  wrap (MEM_TO_SHADOW cfg x - MEM_TO_SHADOW cfg beg) < granules cfg size.
Proof.
  intros (Hb & Hs & Hfit & Hab & Has) Hx.
  pose proof granularity_bounds as HG.
  rewrite !MEM_TO_SHADOW_div. unfold granules. fold G.
  rewrite wrap_wrap_sub_l, wrap_wrap_sub_r.
  pose proof (aligned_multiple beg Hab) as Eb.
  pose proof (aligned_multiple size Has) as Es.
  set (b := beg / G) in *. set (n := size / G) in *.
  assert (Hlo : b <= x / G) by (apply Z.div_le_lower_bound; lia).
  assert (Hhi : x / G < b + n) by (apply Z.div_lt_upper_bound; nia).
  assert (Hn : n < uptr_modulus).
  { apply Z.le_lt_trans with size; [|lia]. rewrite Es. nia. }
  replace (x / G + ASAN_SHADOW_OFFSET cfg - (b + ASAN_SHADOW_OFFSET cfg))
    with (x / G - b) by lia.
  rewrite wrap_small; lia.
Qed.

End Geometry.

(** ** The checks at the head of the functions *)

Lemma DCHECK_pass (cfg : config) (cond : bool) (k : outcome) :
  check_passes cfg cond -> DCHECK cfg cond k = k.
Proof.
  unfold check_passes, DCHECK. intros [H | H]; rewrite H; [reflexivity|].
  rewrite andb_false_r. reflexivity.
Qed.

Lemma check_passes_tagged (cfg : config) (c : bool) (value : Z) :
  check_passes cfg c -> check_passes cfg ((value =? 0) || c).
Proof.
  unfold check_passes. intros [H | H]; [left; exact H | right].
  rewrite H. apply orb_true_r.
Qed.

Lemma check_passes_zero (cfg : config) (c : bool) :
  check_passes cfg ((0 =? 0) || c).
Proof. right. reflexivity. Qed.

(** ** FastPoisonShadow with a nonzero value *)

(** C1. For a granule-aligned range with [size > 0] and a nonzero tag,
    FastPoisonShadow ends normally and every shadow byte covered by the range
    holds one value: [72 - tag] for a tag in [1,7], which lies in [65,71], and
    the tag itself for a tag in [8,255]. *)
Theorem FastPoisonShadow_nonzero_uniform
    (cfg : config) (st : state) (aligned_beg aligned_size value : Z) :
  mapping_ok cfg ->
  aligned_range cfg aligned_beg aligned_size ->
  0 < aligned_size ->
  1 <= value <= 255 ->
  check_passes cfg (CanPoisonMemory st) ->
  exists st',
    FastPoisonShadow cfg st aligned_beg aligned_size value = Done st' /\
    (forall x, aligned_beg <= x < aligned_beg + aligned_size ->
       shadow st' (MEM_TO_SHADOW cfg x) = if value <=? 7 then 72 - value else value) /\
    (value <= 7 ->
       forall x, aligned_beg <= x < aligned_beg + aligned_size ->
         65 <= shadow st' (MEM_TO_SHADOW cfg x) <= 71).
Proof.
  intros Hmap Hr Hpos Hv Hc.
  pose proof (granularity_bounds cfg Hmap) as HG.
  assert (Hne : ASAN_SHADOW_GRANULARITY cfg <= aligned_beg + aligned_size).
  { destruct Hr as (Hb & Hs & _ & _ & Has).
    pose proof (aligned_multiple cfg Hmap aligned_size Has) as Es.
    assert (0 < aligned_size / ASAN_SHADOW_GRANULARITY cfg) by nia. nia. }
  unfold FastPoisonShadow.
  rewrite DCHECK_pass by (apply check_passes_tagged; exact Hc).
  replace (value =? 0) with false by (symmetry; apply Z.eqb_neq; lia).
  cbn [negb]. rewrite shadow_length_eq by assumption.
  eexists. split; [reflexivity|].
  assert (Hfill : forall x, aligned_beg <= x < aligned_beg + aligned_size ->
            shadow (set_shadow st
              (memset (shadow st) (MEM_TO_SHADOW cfg aligned_beg)
                 (if value <=? 7 then to_u8 (72 - value) else value)
                 (granules cfg aligned_size))) (MEM_TO_SHADOW cfg x)
            = if value <=? 7 then 72 - value else value).
  { intros x Hx. cbn [shadow set_shadow]. unfold memset.
    pose proof (shadow_of_member cfg Hmap aligned_beg aligned_size x Hr Hx) as Hin.
    apply Z.ltb_lt in Hin. rewrite Hin.
    destruct (value <=? 7) eqn:E.
    - apply Z.leb_le in E. rewrite !to_u8_small; [reflexivity | lia |].
      rewrite to_u8_small; lia.
    - apply to_u8_small. lia. }
  split; [exact Hfill|].
  intros Hle x Hx. rewrite Hfill by exact Hx.
  replace (value <=? 7) with true by (symmetry; apply Z.leb_le; lia). lia.
Qed.

Lemma FastPoisonShadow_nonzero_uniform_witness :
  exists st',
    FastPoisonShadow (linux_x86_64 true true) clean_state heap_addr 24 5 = Done st' /\
    (forall x, heap_addr <= x < heap_addr + 24 ->
       shadow st' (MEM_TO_SHADOW (linux_x86_64 true true) x) = if 5 <=? 7 then 72 - 5 else 5) /\
    (5 <= 7 ->
       forall x, heap_addr <= x < heap_addr + 24 ->
         65 <= shadow st' (MEM_TO_SHADOW (linux_x86_64 true true) x) <= 71).
Proof.
  apply (FastPoisonShadow_nonzero_uniform (linux_x86_64 true true) clean_state heap_addr 24 5).
  - unfold mapping_ok. simpl. lia.
  - unfold aligned_range, granule_aligned. vm_compute. intuition discriminate.
  - lia.
  - lia.
  - right. reflexivity.
Defined.

(** ** FastPoisonShadow on an empty range *)

(** C8, as the code has it. For an aligned address at or above one granule
    and any tag, FastPoisonShadow with [size = 0] ends normally and changes no
    shadow byte, in the zero and in the nonzero branch. *)
Theorem FastPoisonShadow_empty_noop
    (cfg : config) (st : state) (aligned_beg value : Z) :
  mapping_ok cfg ->
  aligned_range cfg aligned_beg 0 ->
  ASAN_SHADOW_GRANULARITY cfg <= aligned_beg ->
  check_passes cfg ((value =? 0) || CanPoisonMemory st) ->
  exists st',
    FastPoisonShadow cfg st aligned_beg 0 value = Done st' /\
    can_poison_memory st' = can_poison_memory st /\
    mem_eq (shadow st') (shadow st).
Proof.
  intros Hmap Hr Hge Hc.
  pose proof (granularity_bounds cfg Hmap) as HG.
  unfold FastPoisonShadow. rewrite DCHECK_pass by exact Hc.
  rewrite shadow_length_eq by (assumption || lia).
  assert (E0 : granules cfg 0 = 0) by (unfold granules; apply Z.div_0_l; lia).
  rewrite E0.
  destruct (value =? 0); cbn [negb].
  - change (8 <=? 0) with false. cbv iota. eexists. split; [reflexivity|].
    split; [reflexivity|]. intros a. reflexivity.
  - eexists. split; [reflexivity|]. split; [reflexivity|].
    intros a. cbn [shadow set_shadow]. unfold memset.
    replace (wrap (a - MEM_TO_SHADOW cfg aligned_beg) <? 0) with false; [reflexivity|].
    symmetry. apply Z.ltb_ge. apply wrap_range.
Qed.

Lemma FastPoisonShadow_empty_noop_witness :
  exists st',
    FastPoisonShadow (linux_x86_64 true true) clean_state heap_addr 0 250 = Done st' /\
    can_poison_memory st' = can_poison_memory clean_state /\
    mem_eq (shadow st') (shadow clean_state).
Proof.
  apply (FastPoisonShadow_empty_noop (linux_x86_64 true true) clean_state heap_addr 250).
  - unfold mapping_ok. simpl. lia.
  - unfold aligned_range, granule_aligned. vm_compute. intuition discriminate.
  - vm_compute. discriminate.
  - right. reflexivity.
Defined.

(** C8, as stated, fails at address 0: there [aligned_beg + aligned_size -
    ASAN_SHADOW_GRANULARITY] wraps around, the computed shadow range has
    [2^61] bytes and a nonzero tag is written over all of them. *)
Lemma FastPoisonShadow_empty_at_zero_writes :
  aligned_range (linux_x86_64 false true) 0 0 /\
  ~ (forall aligned_beg value,
       aligned_range (linux_x86_64 false true) aligned_beg 0 ->
       0 <= value <= 255 ->
       exists st',
         FastPoisonShadow (linux_x86_64 false true) clean_state aligned_beg 0 value
           = Done st' /\
         mem_eq (shadow st') (shadow clean_state)).
Proof.
  assert (Hr : aligned_range (linux_x86_64 false true) 0 0).
  { unfold aligned_range, granule_aligned. vm_compute. intuition discriminate. }
  split; [exact Hr|].
  intros H. destruct (H 0 250 Hr ltac:(lia)) as (st' & E & Hm).
  specialize (Hm 2147450880).
  assert (E' : shadow_after (FastPoisonShadow (linux_x86_64 false true) clean_state 0 0 250)
                 2147450880 1 = Some [250]) by (vm_compute; reflexivity).
  rewrite E in E'. unfold shadow_after, read_bytes in E'. cbn [map seq] in E'.
  change (wrap (2147450880 + Z.of_nat 0)) with 2147450880 in E'.
  rewrite Hm in E'. vm_compute in E'. discriminate.
Qed.

(** ** FastPoisonShadow with value 0: the gradient *)

Lemma store_below (m : shadow_mem) (p k v a : Z) :
  0 <= k < uptr_modulus ->
  store m (wrap (p - k)) v a = if wrap (p - a) =? k then to_u8 v else m a.
Proof.
  intros Hk. unfold store.
  destruct (Z.eqb_spec (wrap (a - wrap (p - k))) 0) as [E | E];
    destruct (Z.eqb_spec (wrap (p - a)) k) as [E' | E']; try reflexivity;
    exfalso; unwrap.
Qed.

Lemma tail_pattern_default (m : shadow_mem) (p N : Z) :
  7 <= N -> tail_pattern m p N = tail_pattern m p 7.
Proof.
  intros H. destruct N as [|q|q]; try lia.
  destruct q as [[[q|q|]|[q|q|]|]|[[q|q|]|[q|q|]|]|]; try reflexivity; lia.
Qed.

Lemma tail_pattern_spec (m : shadow_mem) (p N a : Z) :
  0 <= N ->
  tail_pattern m p N a
  = if (1 <=? wrap (p - a)) && (wrap (p - a) <=? Z.min N 7)
    then gradient (wrap (p - a)) else m a.
Proof.
  intros HN.
  assert (Hcases : N = 0 \/ N = 1 \/ N = 2 \/ N = 3 \/ N = 4 \/ N = 5 \/ N = 6 \/ 7 <= N) by lia.
  assert (Hmin : 7 <= N -> Z.min N 7 = 7) by lia.
  set (d := wrap (p - a)).
  assert (Hd : d = wrap (p - a)) by reflexivity.
  assert (Hd0 : 0 <= d) by (subst d; apply wrap_range).
  destruct Hcases as [-> | [-> | [-> | [-> | [-> | [-> | [-> | H7]]]]]]];
    [ | | | | | | | rewrite tail_pattern_default, Hmin by exact H7 ];
    unfold tail_pattern;
    rewrite ?store_below by (unfold uptr_modulus; lia);
    fold d;
    (assert (Hdc : d = 0 \/ d = 1 \/ d = 2 \/ d = 3 \/ d = 4 \/ d = 5 \/ d = 6 \/ d = 7 \/ 8 <= d) by lia;
     destruct Hdc as [E | [E | [E | [E | [E | [E | [E | [E | E]]]]]]]];
     [ rewrite E; reflexivity .. | ];
     repeat match goal with
            | |- context [d =? ?k] =>
                replace (d =? k) with false by (symmetry; apply Z.eqb_neq; lia)
            end;
     match goal with
     | |- context [d <=? ?k] =>
         replace (d <=? k) with false by (symmetry; apply Z.leb_gt; lia)
     end;
     rewrite andb_false_r; reflexivity).
Qed.

(** *** The passes of the doubling loop *)

(** A pass with [i <= 29] that finds room for a whole block of [2^i] bytes
    below the bytes already written fills that block with [64 - i] and goes
    round again. *)
Lemma fill_step_continue (m : shadow_mem) (B N i : Z) :
  0 <= B -> B + N < uptr_modulus ->
  3 <= i <= 29 -> 2 ^ (i + 1) <= N ->
  fill_step m B (B + N) i
  = Continue (memset m (B + N - 2 ^ (i + 1) + 1) (64 - i) (2 ^ i)).
Proof.
  intros HB Htop Hi HN.
  assert (HP : 0 < 2 ^ i) by (apply pow2_pos; lia).
  assert (HP2 : 2 ^ (i + 1) = 2 * 2 ^ i) by (apply pow2_succ; lia).
  assert (HP30 : 2 ^ i <= 2 ^ 29) by (apply pow2_le; lia).
  change (2 ^ 29) with 536870912 in HP30.
  unfold fill_step.
  rewrite (wrap_small (i + 1)) by (unfold uptr_modulus; lia).
  rewrite !shl_int_one by lia. unfold int_to_uptr.
  rewrite !wrap_wrap_sub_r, !wrap_wrap_add.
  rewrite (wrap_small (B + N - 2 ^ (i + 1) + 1)) by (unfold uptr_modulus in *; lia).
  rewrite (wrap_small (64 - i)), (wrap_small (2 ^ i)) by (unfold uptr_modulus; lia).
  replace (B + N - 2 ^ (i + 1) + 1 <=? B) with false by (symmetry; apply Z.leb_gt; lia).
  reflexivity.
Qed.

(** A pass with [i <= 29] whose block would reach or pass the range start
    fills what is left of the range, from its start up to the bytes already
    written, with [64 - i] and leaves the loop. *)
Lemma fill_step_break (m : shadow_mem) (B N i : Z) :
  0 <= B -> B + N < uptr_modulus -> N <= B ->
  3 <= i <= 29 -> 2 ^ i <= N < 2 ^ (i + 1) ->
  fill_step m B (B + N) i = Break (memset m B (64 - i) (N - 2 ^ i + 1)).
Proof.
  intros HB Htop Hroom Hi HN.
  assert (HP : 0 < 2 ^ i) by (apply pow2_pos; lia).
  assert (HP2 : 2 ^ (i + 1) = 2 * 2 ^ i) by (apply pow2_succ; lia).
  assert (HP30 : 2 ^ i <= 2 ^ 29) by (apply pow2_le; lia).
  change (2 ^ 29) with 536870912 in HP30.
  unfold fill_step.
  rewrite (wrap_small (i + 1)) by (unfold uptr_modulus; lia).
  rewrite !shl_int_one by lia. unfold int_to_uptr.
  rewrite !wrap_wrap_sub_r, !wrap_wrap_add.
  rewrite (wrap_small (B + N - 2 ^ (i + 1) + 1)) by (unfold uptr_modulus in *; lia).
  rewrite (wrap_small (B + N - 2 ^ i + 1)) by (unfold uptr_modulus in *; lia).
  rewrite (wrap_small (64 - i)) by (unfold uptr_modulus; lia).
  replace (B + N - 2 ^ (i + 1) + 1 <=? B) with true by (symmetry; apply Z.leb_le; lia).
  replace (B + N - 2 ^ i + 1 - B) with (N - 2 ^ i + 1) by lia.
  rewrite (wrap_small (N - 2 ^ i + 1)) by (unfold uptr_modulus; lia).
  reflexivity.
Qed.

(** The pass with [i = 30] computes [1 << 31], which is [INT_MIN]; converted
    to [uptr] and subtracted it moves [bBegin] up by [2^31], past
    [shadow_end], so the pass writes there and goes round again. *)
Lemma fill_step_30 (m : shadow_mem) (B N : Z) :
  0 <= B -> 0 <= N -> B + N + 2147483649 < uptr_modulus ->
  fill_step m B (B + N) 30
  = Continue (memset m (B + N + 2147483649) 34 1073741824).
Proof.
  intros HB HN Htop. unfold fill_step.
  change (wrap (30 + 1)) with 31. rewrite shl_int_one_31.
  change (shl_int 1 30) with (Some 1073741824).
  unfold int_to_uptr.
  rewrite wrap_wrap_sub_r, wrap_wrap_add.
  replace (B + N - -2147483648 + 1) with (B + N + 2147483649) by lia.
  rewrite (wrap_small (B + N + 2147483649)) by lia.
  replace (B + N + 2147483649 <=? B) with false by (symmetry; apply Z.leb_gt; lia).
  reflexivity.
Qed.

(** The pass with [i = 31] shifts an [int] by 32. *)
Lemma fill_step_31 (m : shadow_mem) (B E : Z) : fill_step m B E 31 = StepUndefined.
Proof. reflexivity. Qed.

Lemma memset_inside (m : shadow_mem) (p c n a : Z) :
  wrap (a - p) < n -> memset m p c n a = to_u8 c.
Proof. intros H. unfold memset. apply Z.ltb_lt in H. rewrite H. reflexivity. Qed.

Lemma memset_outside (m : shadow_mem) (p c n a : Z) :
  n <= wrap (a - p) -> memset m p c n a = m a.
Proof. intros H. unfold memset. apply Z.ltb_ge in H. rewrite H. reflexivity. Qed.

(** The loop entered at pass [i] with the [2^i - 1] bytes below [shadow_end]
    written: it ends normally, having extended the gradient to the range
    start. *)
Lemma fill_loop_spec (fuel : nat) :
  forall (i : Z) (m : shadow_mem) (B N : Z),
    0 <= B -> B + N < uptr_modulus -> N <= B ->
    3 <= i <= 29 -> 2 ^ i <= N < 2 ^ 30 ->
    (Z.to_nat (30 - i) <= fuel)%nat ->
    exists m',
      fill_loop fuel m B (B + N) i = Done m' /\
      forall a, m' a = if (2 ^ i <=? wrap (B + N - a)) && (wrap (B + N - a) <=? N)
                       then gradient (wrap (B + N - a)) else m a.
Proof.
  induction fuel as [|fuel IH]; intros i m B N HB Htop Hroom Hi HN Hfuel; [lia|].
  assert (HP : 0 < 2 ^ i) by (apply pow2_pos; lia).
  assert (HP2 : 2 ^ (i + 1) = 2 * 2 ^ i) by (apply pow2_succ; lia).
  assert (HP30 : 2 ^ i <= 2 ^ 29) by (apply pow2_le; lia).
  change (2 ^ 29) with 536870912 in HP30.
  assert (Ev : to_u8 (64 - i) = 64 - i) by (apply to_u8_small; lia).
  cbn [fill_loop].
  destruct (Z.lt_ge_cases N (2 ^ (i + 1))) as [Hlast | Hmore].
  - (* last, partial block *)
    rewrite fill_step_break by (assumption || lia).
    eexists. split; [reflexivity|]. intros a.
    change (2 ^ 30) with 1073741824 in HN.
    set (P := 2 ^ i) in *.
    destruct (Z.lt_ge_cases (wrap (a - B)) (N - P + 1)) as [Hin | Hout].
    + rewrite memset_inside, Ev by exact Hin.
      assert (Hd : P <= wrap (B + N - a) <= N) by unwrap.
      replace (P <=? wrap (B + N - a)) with true by (symmetry; apply Z.leb_le; lia).
      replace (wrap (B + N - a) <=? N) with true by (symmetry; apply Z.leb_le; lia).
      cbn [andb]. unfold gradient. rewrite (log2_band i) by (subst P; lia). reflexivity.
    + rewrite memset_outside by exact Hout.
      assert (Hd : wrap (B + N - a) < P \/ N < wrap (B + N - a)) by unwrap.
      destruct Hd as [Hd | Hd].
      * replace (P <=? wrap (B + N - a)) with false by (symmetry; apply Z.leb_gt; lia).
        reflexivity.
      * replace (wrap (B + N - a) <=? N) with false by (symmetry; apply Z.leb_gt; lia).
        rewrite andb_false_r. reflexivity.
  - (* a whole block fits below the written suffix *)
    assert (Hi1 : i + 1 <= 29).
    { destruct (Z.le_gt_cases (i + 1) 29) as [H | H]; [exact H|].
      assert (2 ^ 30 <= 2 ^ (i + 1)) by (apply pow2_le; lia). lia. }
    rewrite fill_step_continue by (assumption || lia).
    rewrite (wrap_small (i + 1)) by (unfold uptr_modulus; lia).
    destruct (IH (i + 1) (memset m (B + N - 2 ^ (i + 1) + 1) (64 - i) (2 ^ i))
                 B N HB Htop Hroom ltac:(lia) ltac:(lia) ltac:(lia)) as (m' & Erun & Hm').
    exists m'. split; [exact Erun|]. intros a. rewrite Hm', HP2.
    change (2 ^ 30) with 1073741824 in HN.
    set (P := 2 ^ i) in *.
    destruct (Z.leb_spec (2 * P) (wrap (B + N - a))) as [Hhi | Hlo];
      destruct (Z.leb_spec (wrap (B + N - a)) N) as [HleN | HgtN]; cbn [andb].
    + replace (P <=? wrap (B + N - a)) with true by (symmetry; apply Z.leb_le; lia).
      reflexivity.
    + rewrite memset_outside by unwrap.
      rewrite andb_false_r. reflexivity.
    + destruct (Z.leb_spec P (wrap (B + N - a))) as [Hmid | Hsmall]; cbn [andb].
      * rewrite memset_inside, Ev by unwrap.
        unfold gradient. rewrite (log2_band i) by (subst P; lia). reflexivity.
      * rewrite memset_outside by unwrap. reflexivity.
    + destruct (Z.leb_spec P (wrap (B + N - a))) as [Hmid | Hsmall]; cbn [andb].
      * lia.
      * rewrite memset_outside by unwrap. reflexivity.
Qed.

(** On a range of [2^30] granules or more every pass up to [i = 30] goes
    round again, and the pass with [i = 31] is undefined. *)
Lemma fill_loop_large (fuel : nat) :
  forall (i : Z) (m : shadow_mem) (B N : Z),
    0 <= B -> B + N + 2147483649 < uptr_modulus ->
    3 <= i <= 31 -> 2 ^ 30 <= N ->
    (Z.to_nat (32 - i) <= fuel)%nat ->
    fill_loop fuel m B (B + N) i = Undefined.
Proof.
  induction fuel as [|fuel IH]; intros i m B N HB Htop Hi HN Hfuel; [lia|].
  change (2 ^ 30) with 1073741824 in HN.
  cbn [fill_loop].
  assert (Hc : i <= 29 \/ i = 30 \/ i = 31) by lia.
  destruct Hc as [Hc | [-> | ->]].
  - assert (HP : 2 ^ (i + 1) <= 2 ^ 30) by (apply pow2_le; lia).
    change (2 ^ 30) with 1073741824 in HP.
    rewrite fill_step_continue by lia.
    rewrite (wrap_small (i + 1)) by (unfold uptr_modulus; lia).
    apply IH; lia.
  - rewrite fill_step_30 by lia.
    change (wrap (30 + 1)) with 31.
    apply IH; lia.
  - rewrite fill_step_31. reflexivity.
Qed.

(** The bytes the zero branch leaves: the gradient over the shadow of the
    range, every other byte as before. Short ranges need no assumption on
    where the shadow lies; ranges that enter the doubling loop need the
    shadow to be well placed and the range to be below [2^30] granules. *)
Lemma FastPoisonShadow_zero_spec
    (cfg : config) (st : state) (aligned_beg aligned_size : Z) :
  mapping_ok cfg ->
  aligned_range cfg aligned_beg aligned_size ->
  ASAN_SHADOW_GRANULARITY cfg <= aligned_beg + aligned_size ->
  granules cfg aligned_size <= 7 \/
    (shadow_span_ok cfg aligned_beg aligned_size /\ granules cfg aligned_size < 2 ^ 30) ->
  exists st',
    FastPoisonShadow cfg st aligned_beg aligned_size 0 = Done st' /\
    can_poison_memory st' = can_poison_memory st /\
    forall a,
      shadow st' a
      = if (1 <=? wrap (MEM_TO_SHADOW cfg aligned_beg + granules cfg aligned_size - a))
           && (wrap (MEM_TO_SHADOW cfg aligned_beg + granules cfg aligned_size - a)
               <=? granules cfg aligned_size)
        then gradient (wrap (MEM_TO_SHADOW cfg aligned_beg + granules cfg aligned_size - a))
        else shadow st a.
Proof.
  intros Hmap Hr Hne Hsz.
  pose proof (granules_range cfg Hmap aligned_size ltac:(apply Hr)) as HN.
  unfold FastPoisonShadow.
  rewrite DCHECK_pass by apply check_passes_zero.
  change (negb (0 =? 0)) with false. cbv iota.
  rewrite shadow_length_eq, shadow_end_eq by assumption.
  set (B := MEM_TO_SHADOW cfg aligned_beg) in *.
  set (N := granules cfg aligned_size) in *.
  destruct (Z.leb_spec 8 N) as [Hbig | Hsmall].
  - destruct Hsz as [Hsz | ((Htop & Hroom) & H30)]; [lia|].
    fold B N in Htop, Hroom.
    assert (HB : 0 <= B) by (subst B; unfold MEM_TO_SHADOW; apply wrap_range).
    rewrite (wrap_small (B + N)) by lia.
    destruct (fill_loop_spec fill_loop_budget 3 (tail_pattern (shadow st) (B + N) N) B N
                HB Htop Hroom ltac:(lia) ltac:(change (2 ^ 3) with 8; lia)
                ltac:(vm_compute; lia)) as (m' & Erun & Hm').
    rewrite Erun. cbn [bind].
    eexists. split; [reflexivity|]. split; [reflexivity|].
    intros a. cbn [shadow set_shadow]. rewrite Hm', tail_pattern_spec by lia.
    change (2 ^ 3) with 8. rewrite Z.min_r by lia.
    set (d := wrap (B + N - a)).
    destruct (Z.leb_spec 8 d), (Z.leb_spec d N), (Z.leb_spec 1 d), (Z.leb_spec d 7);
      cbn [andb]; try reflexivity; lia.
  - eexists. split; [reflexivity|]. split; [reflexivity|].
    intros a. cbn [shadow set_shadow]. rewrite tail_pattern_spec by lia.
    rewrite wrap_wrap_sub_l, Z.min_l by lia. reflexivity.
Qed.

Lemma read_bytes_map (m : shadow_mem) (p : Z) (n : nat) (f : nat -> Z) :
  (forall k, (k < n)%nat -> m (wrap (p + Z.of_nat k)) = f k) ->
  read_bytes m p n = map f (seq 0 n).
Proof.
  intros H. unfold read_bytes. apply map_ext_in.
  intros k Hk. apply in_seq in Hk. apply H. lia.
Qed.

Lemma distance_from_end (B N k : Z) :
  0 <= N - k < uptr_modulus -> wrap (B + N - wrap (B + k)) = N - k.
Proof.
  intros H. rewrite wrap_wrap_sub_r.
  replace (B + N - (B + k)) with (N - k) by lia. apply wrap_small. exact H.
Qed.

(** C3. For a granule-aligned range with tag 0 and [0 < size < 7 G],
    FastPoisonShadow ends normally, the shadow bytes of the range hold the
    suffix of length [size / G] of [[62,62,62,63,63,64]], and every other
    shadow byte is as before. *)
Theorem FastPoisonShadow_zero_short
    (cfg : config) (st : state) (aligned_beg aligned_size : Z) :
  mapping_ok cfg ->
  aligned_range cfg aligned_beg aligned_size ->
  0 < aligned_size < 7 * ASAN_SHADOW_GRANULARITY cfg ->
  exists st',
    FastPoisonShadow cfg st aligned_beg aligned_size 0 = Done st' /\
    read_bytes (shadow st') (MEM_TO_SHADOW cfg aligned_beg)
               (Z.to_nat (granules cfg aligned_size))
    = skipn (6 - Z.to_nat (granules cfg aligned_size)) [62; 62; 62; 63; 63; 64] /\
    forall a,
      granules cfg aligned_size <= wrap (a - MEM_TO_SHADOW cfg aligned_beg) ->
      shadow st' a = shadow st a.
Proof.
  intros Hmap Hr Hsz.
  pose proof (granularity_bounds cfg Hmap) as HG.
  assert (HN : 1 <= granules cfg aligned_size <= 6).
  { destruct Hr as (_ & _ & _ & _ & Has).
    pose proof (aligned_multiple cfg Hmap aligned_size Has) as Es.
    unfold granules. nia. }
  assert (Hne : ASAN_SHADOW_GRANULARITY cfg <= aligned_beg + aligned_size).
  { destruct Hr as (Hb & _ & _ & _ & Has).
    pose proof (aligned_multiple cfg Hmap aligned_size Has) as Es.
    unfold granules in HN. nia. }
  destruct (FastPoisonShadow_zero_spec cfg st aligned_beg aligned_size Hmap Hr Hne
              ltac:(left; lia)) as (st' & Erun & _ & Hm).
  exists st'. split; [exact Erun|].
  set (B := MEM_TO_SHADOW cfg aligned_beg) in *.
  set (N := granules cfg aligned_size) in *.
  split.
  - rewrite (read_bytes_map _ _ _ (fun k => gradient (N - Z.of_nat k))).
    + assert (HNc : N = 1 \/ N = 2 \/ N = 3 \/ N = 4 \/ N = 5 \/ N = 6) by lia.
      destruct HNc as [-> | [-> | [-> | [-> | [-> | ->]]]]]; reflexivity.
    + intros k Hk. rewrite Hm.
      rewrite distance_from_end by (unfold uptr_modulus; lia).
      replace (1 <=? N - Z.of_nat k) with true by (symmetry; apply Z.leb_le; lia).
      replace (N - Z.of_nat k <=? N) with true by (symmetry; apply Z.leb_le; lia).
      reflexivity.
  - intros a Ha. rewrite Hm.
    assert (Hd : wrap (B + N - a) = 0 \/ N < wrap (B + N - a)) by unwrap.
    destruct Hd as [Hd | Hd].
    + rewrite Hd. reflexivity.
    + replace (wrap (B + N - a) <=? N) with false by (symmetry; apply Z.leb_gt; lia).
      rewrite andb_false_r. reflexivity.
Qed.

Lemma FastPoisonShadow_zero_short_witness :
  exists st',
    FastPoisonShadow (linux_x86_64 true true) clean_state heap_addr 24 0 = Done st' /\
    read_bytes (shadow st') (MEM_TO_SHADOW (linux_x86_64 true true) heap_addr)
               (Z.to_nat (granules (linux_x86_64 true true) 24))
    = skipn (6 - Z.to_nat (granules (linux_x86_64 true true) 24)) [62; 62; 62; 63; 63; 64] /\
    forall a,
      granules (linux_x86_64 true true) 24
        <= wrap (a - MEM_TO_SHADOW (linux_x86_64 true true) heap_addr) ->
      shadow st' a = shadow clean_state a.
Proof.
  apply (FastPoisonShadow_zero_short (linux_x86_64 true true) clean_state heap_addr 24).
  - unfold mapping_ok. simpl. lia.
  - unfold aligned_range, granule_aligned. vm_compute. intuition discriminate.
  - vm_compute. split; reflexivity.
Defined.

(** C2, as the code has it. For a granule-aligned range with tag 0 of at
    least 7 and fewer than [2^30] granules whose shadow is well placed, the
    last 7 shadow bytes of the range, low address first, are
    [[62,62,62,62,63,63,64]] whatever the size; the highest one is 64. *)
Theorem FastPoisonShadow_zero_last_seven
    (cfg : config) (st : state) (aligned_beg aligned_size : Z) :
  mapping_ok cfg ->
  aligned_range cfg aligned_beg aligned_size ->
  shadow_span_ok cfg aligned_beg aligned_size ->
  7 * ASAN_SHADOW_GRANULARITY cfg <= aligned_size ->
  granules cfg aligned_size < 2 ^ 30 ->
  exists st',
    FastPoisonShadow cfg st aligned_beg aligned_size 0 = Done st' /\
    read_bytes (shadow st')
               (wrap (MEM_TO_SHADOW cfg aligned_beg + granules cfg aligned_size - 7)) 7
    = [62; 62; 62; 62; 63; 63; 64].
Proof.
  intros Hmap Hr Hspan Hsz H30.
  pose proof (granularity_bounds cfg Hmap) as HG.
  assert (HN : 7 <= granules cfg aligned_size).
  { unfold granules. apply Z.div_le_lower_bound; lia. }
  assert (Hne : ASAN_SHADOW_GRANULARITY cfg <= aligned_beg + aligned_size).
  { destruct Hr as (Hb & _). lia. }
  destruct (FastPoisonShadow_zero_spec cfg st aligned_beg aligned_size Hmap Hr Hne
              ltac:(right; split; assumption)) as (st' & Erun & _ & Hm).
  exists st'. split; [exact Erun|].
  set (B := MEM_TO_SHADOW cfg aligned_beg) in *.
  set (N := granules cfg aligned_size) in *.
  rewrite (read_bytes_map _ _ _ (fun k => gradient (7 - Z.of_nat k))); [reflexivity|].
  intros k Hk. rewrite Hm, wrap_wrap_add.
  replace (B + N - 7 + Z.of_nat k) with (B + (N - 7 + Z.of_nat k)) by lia.
  rewrite distance_from_end by (unfold uptr_modulus; lia).
  replace (N - (N - 7 + Z.of_nat k)) with (7 - Z.of_nat k) by lia.
  replace (1 <=? 7 - Z.of_nat k) with true by (symmetry; apply Z.leb_le; lia).
  replace (7 - Z.of_nat k <=? N) with true by (symmetry; apply Z.leb_le; lia).
  reflexivity.
Qed.

Lemma FastPoisonShadow_zero_last_seven_witness :
  exists st',
    FastPoisonShadow (linux_x86_64 true true) clean_state heap_addr 160 0 = Done st' /\
    read_bytes (shadow st')
               (wrap (MEM_TO_SHADOW (linux_x86_64 true true) heap_addr
                      + granules (linux_x86_64 true true) 160 - 7)) 7
    = [62; 62; 62; 62; 63; 63; 64].
Proof.
  apply (FastPoisonShadow_zero_last_seven (linux_x86_64 true true) clean_state heap_addr 160).
  - unfold mapping_ok. simpl. lia.
  - unfold aligned_range, granule_aligned. vm_compute. intuition discriminate.
  - unfold shadow_span_ok. vm_compute. split; [reflexivity | discriminate].
  - vm_compute. discriminate.
  - vm_compute. reflexivity.
Defined.

(** C2, as stated, fails on a range of exactly 7 granules: its 7 shadow bytes
    are [[62,62,62,62,63,63,64]], four bytes of 62 and not three, so they
    are not the six-element sequence [[62,62,62,63,63,64]]. *)
Lemma FastPoisonShadow_zero_last_seven_not_six :
  shadow_after (FastPoisonShadow (linux_x86_64 true true) clean_state heap_addr 56 0)
               (MEM_TO_SHADOW (linux_x86_64 true true) heap_addr) 7
    = Some [62; 62; 62; 62; 63; 63; 64] /\
  shadow_after (FastPoisonShadow (linux_x86_64 true true) clean_state heap_addr 56 0)
               (MEM_TO_SHADOW (linux_x86_64 true true) heap_addr) 7
    <> Some [62; 62; 62; 63; 63; 64].
Proof.
  split.
  - vm_compute. reflexivity.
  - vm_compute. discriminate.
Qed.

(** ** Ranges of [2^30] granules and more *)

(** For ranges below [2^30] granules the bytes of the gradient stay within
    [35, 64]. *)
Lemma gradient_bounds (d : Z) : 1 <= d < 2 ^ 30 -> 35 <= gradient d <= 64.
Proof.
  intros Hd. unfold gradient.
  pose proof (Z.log2_nonneg d) as H0.
  assert (H1 : Z.log2 d < 30) by (apply Z.log2_lt_pow2; lia).
  lia.
Qed.

Lemma gradient_antitone (d d' : Z) : 1 <= d <= d' -> gradient d' <= gradient d.
Proof.
  intros H. unfold gradient.
  pose proof (Z.log2_le_mono d d' ltac:(lia)). lia.
Qed.

(** Below [2^30] granules the zero branch leaves bytes that do not decrease
    towards the high end of the range, all of them in [35, 64]. *)
Lemma FastPoisonShadow_zero_monotone_below_2_30
    (cfg : config) (st : state) (aligned_beg aligned_size : Z) :
  mapping_ok cfg ->
  aligned_range cfg aligned_beg aligned_size ->
  shadow_span_ok cfg aligned_beg aligned_size ->
  0 < aligned_size ->
  granules cfg aligned_size < 2 ^ 30 ->
  exists st',
    FastPoisonShadow cfg st aligned_beg aligned_size 0 = Done st' /\
    (forall x y, 0 <= x -> x < y -> y < granules cfg aligned_size ->
       shadow st' (wrap (MEM_TO_SHADOW cfg aligned_beg + x))
       <= shadow st' (wrap (MEM_TO_SHADOW cfg aligned_beg + y))) /\
    (forall x, 0 <= x < granules cfg aligned_size ->
       35 <= shadow st' (wrap (MEM_TO_SHADOW cfg aligned_beg + x)) <= 64).
Proof.
  intros Hmap Hr Hspan Hpos H30.
  pose proof (granularity_bounds cfg Hmap) as HG.
  assert (Hne : ASAN_SHADOW_GRANULARITY cfg <= aligned_beg + aligned_size).
  { destruct Hr as (Hb & _ & _ & _ & Has).
    pose proof (aligned_multiple cfg Hmap aligned_size Has) as Es.
    assert (0 < aligned_size / ASAN_SHADOW_GRANULARITY cfg) by nia. nia. }
  destruct (FastPoisonShadow_zero_spec cfg st aligned_beg aligned_size Hmap Hr Hne
              ltac:(right; split; assumption)) as (st' & Erun & _ & Hm).
  exists st'. split; [exact Erun|].
  set (B := MEM_TO_SHADOW cfg aligned_beg) in *.
  set (N := granules cfg aligned_size) in *.
  assert (Hbyte : forall x, 0 <= x < N ->
            shadow st' (wrap (B + x)) = gradient (N - x)).
  { intros x Hx. rewrite Hm.
    rewrite distance_from_end by (change (2 ^ 30) with 1073741824 in H30; unfold uptr_modulus; lia).
    replace (1 <=? N - x) with true by (symmetry; apply Z.leb_le; lia).
    replace (N - x <=? N) with true by (symmetry; apply Z.leb_le; lia).
    reflexivity. }
  split.
  - intros x y Hx Hxy Hy. rewrite !Hbyte by lia. apply gradient_antitone. lia.
  - intros x Hx. rewrite Hbyte by lia. apply gradient_bounds. lia.
Qed.

(** With value 0, FastPoisonShadow on a range of [2^30] granules or more
    (its shadow not within [2^31] bytes of the top of the address space) runs
    into the undefined [int] shift [1 << 32]: the loop computes
    [1 << (i + 1)] in [int], not in [uptr], so the index [i] cannot go beyond
    30. *)
Theorem FastPoisonShadow_zero_large_undefined
    (cfg : config) (st : state) (aligned_beg aligned_size : Z) :
  mapping_ok cfg ->
  aligned_range cfg aligned_beg aligned_size ->
  2 ^ 30 <= granules cfg aligned_size ->
  MEM_TO_SHADOW cfg aligned_beg + granules cfg aligned_size + 2147483649 < uptr_modulus ->
  FastPoisonShadow cfg st aligned_beg aligned_size 0 = Undefined.
Proof.
  intros Hmap Hr HN Htop.
  pose proof (granularity_bounds cfg Hmap) as HG.
  change (2 ^ 30) with 1073741824 in HN.
  assert (Hne : ASAN_SHADOW_GRANULARITY cfg <= aligned_beg + aligned_size).
  { destruct Hr as (Hb & _ & _ & _ & Has).
    pose proof (aligned_multiple cfg Hmap aligned_size Has) as Es.
    unfold granules in HN. nia. }
  unfold FastPoisonShadow.
  rewrite DCHECK_pass by apply check_passes_zero.
  change (negb (0 =? 0)) with false. cbv iota.
  rewrite shadow_length_eq, shadow_end_eq by assumption.
  set (B := MEM_TO_SHADOW cfg aligned_beg) in *.
  set (N := granules cfg aligned_size) in *.
  assert (HB : 0 <= B) by (subst B; unfold MEM_TO_SHADOW; apply wrap_range).
  replace (8 <=? N) with true by (symmetry; apply Z.leb_le; lia).
  rewrite (wrap_small (B + N)) by lia.
  rewrite fill_loop_large; [reflexivity | lia | lia | lia | | vm_compute; lia].
  change (2 ^ 30) with 1073741824. lia.
Qed.

Lemma FastPoisonShadow_zero_large_undefined_witness :
  FastPoisonShadow (linux_x86_64 true true) clean_state mmap_addr 8589934592 0 = Undefined.
Proof.
  apply (FastPoisonShadow_zero_large_undefined (linux_x86_64 true true) clean_state
           mmap_addr 8589934592).
  - unfold mapping_ok. simpl. lia.
  - unfold aligned_range, granule_aligned. vm_compute. intuition discriminate.
  - vm_compute. discriminate.
  - vm_compute. reflexivity.
Defined.

(** C6, evaluated on an 8 GiB range of poisoned memory. The call is
    undefined; up to the undefined shift the passes have left the first
    shadow byte of the range at its old value [0xfa], above the 35 stored in
    the byte that follows it. *)
Theorem FastPoisonShadow_zero_8GiB_not_monotone :
  FastPoisonShadow (linux_x86_64 false true) poisoned_state mmap_addr 8589934592 0
    = Undefined /\
  MEM_TO_SHADOW (linux_x86_64 false true) mmap_addr = 17456894541824 /\
  granules (linux_x86_64 false true) 8589934592 = 1073741824 /\
  match fill_passes 28
          (tail_pattern (shadow poisoned_state) (17456894541824 + 1073741824) 1073741824)
          17456894541824 (17456894541824 + 1073741824) 3 with
  | Some m =>
      fill_step m 17456894541824 (17456894541824 + 1073741824) 31 = StepUndefined /\
      m 17456894541824 = 250 /\ m (17456894541824 + 1) = 35
  | None => False
  end.
Proof.
  split; [vm_compute; reflexivity|].
  split; [vm_compute; reflexivity|].
  split; [vm_compute; reflexivity|].
  vm_compute. repeat split.
Qed.

(** C4, evaluated on the pass [i = 30] of a range of [2^30] granules. The
    block of this pass would pass the range start, yet the pass neither
    fills the one byte left at the range start nor leaves the loop: it
    writes 34 into [2^30] bytes beginning [2^31 + 1] above [shadow_end] and
    goes round again, into the undefined shift. *)
Theorem fill_step_30_misses_range :
  MEM_TO_SHADOW (linux_x86_64 false true) mmap_addr = 17456894541824 /\
  granules (linux_x86_64 false true) 8589934592 = 1073741824 /\
  match fill_step (shadow poisoned_state)
                  17456894541824 (17456894541824 + 1073741824) 30 with
  | Continue m' =>
      m' 17456894541824 = shadow poisoned_state 17456894541824 /\
      m' (17456894541824 + 1073741824 + 2147483649) = 34
  | _ => False
  end /\
  FastPoisonShadow (linux_x86_64 false true) poisoned_state mmap_addr 8589934592 0
    = Undefined.
Proof.
  split; [vm_compute; reflexivity|].
  split; [vm_compute; reflexivity|].
  split; vm_compute; [split|]; reflexivity.
Qed.

(** ** Calling FastPoisonShadow twice *)

Lemma overwrites_id : overwrites (fun m => m).
Proof. exists (fun _ => None). reflexivity. Qed.

Lemma overwrites_memset (g : shadow_mem -> shadow_mem) (p c n : Z) :
  overwrites g -> overwrites (fun m => memset (g m) p c n).
Proof.
  intros [mask Hg].
  exists (fun a => if wrap (a - p) <? n then Some (to_u8 c) else mask a).
  intros m a. unfold memset. destruct (wrap (a - p) <? n); [reflexivity | apply Hg].
Qed.

Lemma overwrites_store (g : shadow_mem -> shadow_mem) (p v : Z) :
  overwrites g -> overwrites (fun m => store (g m) p v).
Proof.
  intros [mask Hg].
  exists (fun a => if wrap (a - p) =? 0 then Some (to_u8 v) else mask a).
  intros m a. unfold store. destruct (wrap (a - p) =? 0); [reflexivity | apply Hg].
Qed.

Lemma overwrites_twice (f : shadow_mem -> shadow_mem) :
  overwrites f -> forall m, mem_eq (f (f m)) (f m).
Proof.
  intros [mask Hf] m a. rewrite (Hf (f m)), (Hf m).
  destruct (mask a); reflexivity.
Qed.

Lemma overwrites_tail_pattern (p N : Z) : overwrites (fun m => tail_pattern m p N).
Proof.
  destruct N as [|q|q];
    [ | destruct q as [[[q|q|]|[q|q|]|]|[[q|q|]|[q|q|]|]|] | ];
    cbn [tail_pattern];
    repeat apply overwrites_store; apply overwrites_id.
Qed.

Lemma fill_loop_oblivious (B E : Z) (fuel : nat) :
  forall (i : Z) (g : shadow_mem -> shadow_mem),
    overwrites g -> oblivious (fun m => fill_loop fuel (g m) B E i).
Proof.
  induction fuel as [|fuel IH]; intros i g Hg.
  - right. right. right. reflexivity.
  - cbn [fill_loop]. unfold fill_step.
    destruct (shl_int 1 (wrap (i + 1))) as [s1|]; [|right; right; left; reflexivity].
    destruct (shl_int 1 i) as [s0|].
    + destruct (wrap (wrap (E - int_to_uptr s1) + 1) <=? B).
      * left. eexists. split; [|intros m; reflexivity].
        apply overwrites_memset. exact Hg.
      * apply (IH (wrap (i + 1))
                  (fun m => memset (g m) (wrap (wrap (E - int_to_uptr s1) + 1))
                                   (wrap (64 - i)) (int_to_uptr s0))).
        apply overwrites_memset. exact Hg.
    + destruct (wrap (wrap (E - int_to_uptr s1) + 1) <=? B);
        right; right; left; reflexivity.
Qed.

(** The loop of FastPoisonShadow never uses up its budget of passes. *)
Lemma fill_loop_terminates (B E : Z) (fuel : nat) :
  forall (i : Z) (m : shadow_mem),
    0 <= i -> (Z.to_nat (31 - i) < fuel)%nat ->
    fill_loop fuel m B E i <> OutOfFuel.
Proof.
  induction fuel as [|fuel IH]; intros i m Hi Hfuel; [lia|].
  - cbn [fill_loop].
    destruct (fill_step m B E i) as [m' | m' |] eqn:Es; try discriminate.
    destruct (Z.le_gt_cases 31 i) as [Hbig | Hsmall].
    + exfalso. unfold fill_step in Es.
      destruct (Z.lt_ge_cases (i + 1) uptr_modulus) as [Hlt | Hge].
      * rewrite (wrap_small (i + 1)), shl_int_one_undefined in Es by lia. discriminate.
      * destruct (shl_int 1 (wrap (i + 1))); [|discriminate].
        rewrite shl_int_one_undefined in Es by (unfold uptr_modulus in Hge; lia).
        destruct (_ <=? _) in Es; discriminate.
    + rewrite (wrap_small (i + 1)) by (unfold uptr_modulus; lia).
      apply IH; lia.
Qed.

Lemma FastPoisonShadow_writes (cfg : config) (st : state) (aligned_beg aligned_size value : Z) :
  FastPoisonShadow cfg st aligned_beg aligned_size value
  = DCHECK cfg ((value =? 0) || CanPoisonMemory st)
      (m' <- poison_writes cfg aligned_beg aligned_size value (shadow st) ;;
       Done (set_shadow st m')).
Proof.
  unfold FastPoisonShadow, poison_writes. f_equal.
  destruct (negb (value =? 0)); [reflexivity|].
  destruct (8 <=? _); reflexivity.
Qed.

Lemma poison_writes_oblivious (cfg : config) (aligned_beg aligned_size value : Z) :
  oblivious (poison_writes cfg aligned_beg aligned_size value).
Proof.
  unfold poison_writes.
  destruct (negb (value =? 0)).
  - left. eexists. split; [|intros m; reflexivity].
    apply overwrites_memset, overwrites_id.
  - destruct (8 <=? _).
    + apply (fill_loop_oblivious _ _ _ _ (fun m => tail_pattern m _ _)).
      apply overwrites_tail_pattern.
    + left. eexists. split; [|intros m; reflexivity].
      apply overwrites_tail_pattern.
Qed.

(** FastPoisonShadow always ends within the budget of passes given to its
    loop. *)
Lemma FastPoisonShadow_within_budget
    (cfg : config) (st : state) (aligned_beg aligned_size value : Z) :
  FastPoisonShadow cfg st aligned_beg aligned_size value <> OutOfFuel.
Proof.
  rewrite FastPoisonShadow_writes. unfold DCHECK, poison_writes.
  destruct (SANITIZER_DEBUG cfg && _); [discriminate|].
  destruct (negb (value =? 0)); [discriminate|].
  destruct (8 <=? _); [|discriminate].
  match goal with
  | |- (m' <- ?r ;; _) <> _ =>
      assert (H : r <> OutOfFuel) by (apply fill_loop_terminates; vm_compute; [discriminate | lia]);
      destruct r; cbn [bind]; try discriminate; exfalso; apply H; reflexivity
  end.
Qed.

Lemma FastPoisonShadow_twice
    (cfg : config) (st : state) (aligned_beg aligned_size value : Z) :
  outcome_eq
    (st' <- FastPoisonShadow cfg st aligned_beg aligned_size value ;;
     FastPoisonShadow cfg st' aligned_beg aligned_size value)
    (FastPoisonShadow cfg st aligned_beg aligned_size value).
Proof.
  rewrite (FastPoisonShadow_writes cfg st). unfold DCHECK.
  destruct (SANITIZER_DEBUG cfg && negb ((value =? 0) || CanPoisonMemory st)) eqn:Echk;
    [exact I|].
  destruct (poison_writes_oblivious cfg aligned_beg aligned_size value)
    as [(f & Hf & Hrun) | [Hrun | [Hrun | Hrun]]];
    rewrite (Hrun (shadow st)); cbn [bind]; try exact I.
  rewrite FastPoisonShadow_writes. unfold DCHECK.
  change (CanPoisonMemory (set_shadow st (f (shadow st)))) with (CanPoisonMemory st).
  rewrite Echk. cbn [shadow set_shadow]. rewrite Hrun. cbn [bind outcome_eq].
  split; [reflexivity|]. cbn [shadow set_shadow]. apply overwrites_twice. exact Hf.
Qed.

(** C7. For every range and every tag, FastPoisonShadow called twice in
    succession with the same arguments ends as a single call does; in
    particular, when the first call ends normally the second one does too and
    leaves exactly the shadow bytes (and the toggle) the first one left. *)
Theorem FastPoisonShadow_idempotent
    (cfg : config) (st : state) (aligned_beg aligned_size value : Z) :
  outcome_eq
    (st' <- FastPoisonShadow cfg st aligned_beg aligned_size value ;;
     FastPoisonShadow cfg st' aligned_beg aligned_size value)
    (FastPoisonShadow cfg st aligned_beg aligned_size value) /\
  (forall st1,
     FastPoisonShadow cfg st aligned_beg aligned_size value = Done st1 ->
     exists st2,
       FastPoisonShadow cfg st1 aligned_beg aligned_size value = Done st2 /\
       can_poison_memory st2 = can_poison_memory st1 /\
       mem_eq (shadow st2) (shadow st1)).
Proof.
  pose proof (FastPoisonShadow_twice cfg st aligned_beg aligned_size value) as H.
  split; [exact H|].
  intros st1 E. rewrite E in H. cbn [bind] in H.
  destruct (FastPoisonShadow cfg st1 aligned_beg aligned_size value) as [st2| | |];
    cbn [outcome_eq] in H; try contradiction.
  exists st2. split; [reflexivity|]. exact H.
Qed.

(** ** FastPoisonShadowPartialRightRedzone *)

Section Redzone.

Variable cfg : config.
Hypothesis Hmap : mapping_ok cfg.

Let G := ASAN_SHADOW_GRANULARITY cfg.

Variables size redzone_size value : Z.
Hypothesis Hfit : redzone_size + G <= uptr_modulus.

(** The loop entered at offset [i] with pointer [sh]: it ends normally, the
    [j]-th byte from [sh] holds the byte of offset [i + j G] for every offset
    below [redzone_size], and the other bytes are untouched. *)
Lemma redzone_loop_spec (fuel : nat) :
  forall (i sh : Z) (m : shadow_mem),
    0 <= i ->
    redzone_size - i <= Z.of_nat fuel * G ->
    exists m',
      redzone_loop cfg fuel m sh i size redzone_size value = Done m' /\
      (forall j, 0 <= j -> i + j * G < redzone_size ->
         m' (wrap (sh + j)) = to_u8 (redzone_byte cfg (i + j * G) size value)) /\
      (forall a, (forall j, 0 <= j -> i + j * G < redzone_size -> wrap (a - sh) <> j) ->
         m' a = m a).
Proof.
  pose proof (granularity_bounds cfg Hmap) as HG. fold G in HG.
  induction fuel as [|fuel IH]; intros i sh m Hi Hfuel.
  - exists m. cbn [redzone_loop].
    replace (i <? redzone_size) with false by (symmetry; apply Z.ltb_ge; lia).
    split; [reflexivity|]. split; [|reflexivity].
    intros j Hj Hlt. exfalso. nia.
  - cbn [redzone_loop].
    destruct (Z.ltb_spec i redzone_size) as [Hin | Hout].
    + fold G. rewrite (wrap_small (i + G)) by lia.
      destruct (IH (i + G) (wrap (sh + 1))
                   (store m sh (redzone_byte cfg i size value))
                   ltac:(lia) ltac:(lia)) as (m' & Erun & Hhit & Hframe).
      exists m'. split; [exact Erun|]. split.
      * intros j Hj Hlt.
        destruct (Z.eq_dec j 0) as [-> | Hj0].
        -- rewrite Hframe.
           ++ unfold store. rewrite Z.add_0_r, wrap_wrap_sub_l, Z.sub_diag.
              rewrite Z.mul_0_l, Z.add_0_r. reflexivity.
           ++ intros j' Hj' Hlt' Habs.
              assert (Hb : j' < uptr_modulus - 1) by nia.
              revert Habs. rewrite wrap_wrap_sub_l, wrap_wrap_sub_r. unwrap.
        -- replace (wrap (sh + j)) with (wrap (wrap (sh + 1) + (j - 1)))
             by (rewrite wrap_wrap_add; f_equal; lia).
           rewrite Hhit by nia.
           do 2 f_equal. lia.
      * intros a Ha.
        rewrite Hframe.
        -- unfold store.
           replace (wrap (a - sh) =? 0) with false; [reflexivity|].
           symmetry. apply Z.eqb_neq. apply (Ha 0); lia.
        -- intros j' Hj' Hlt' Habs.
           assert (Hb : j' < uptr_modulus - 1) by nia.
           apply (Ha (j' + 1)); [lia | nia |].
           revert Habs. rewrite wrap_wrap_sub_r. unwrap.
    + exists m. split; [reflexivity|]. split; [|reflexivity].
      intros j Hj Hlt. exfalso. nia.
Qed.

End Redzone.

(** When the redzone ends less than one granule below [2^64] the counter [i]
    wraps round to 0 before it can reach [redzone_size]: the loop has no
    last pass, whatever the budget. *)
Lemma redzone_loop_diverges (cfg : config) (size redzone_size value : Z) :
  mapping_ok cfg ->
  uptr_modulus - ASAN_SHADOW_GRANULARITY cfg < redzone_size ->
  forall (fuel : nat) (m : shadow_mem) (sh i : Z),
    0 <= i < uptr_modulus -> i mod ASAN_SHADOW_GRANULARITY cfg = 0 ->
    redzone_loop cfg fuel m sh i size redzone_size value = OutOfFuel.
Proof.
  intros Hmap Hbig.
  pose proof (granularity_bounds cfg Hmap) as HG.
  assert (Hdiv : uptr_modulus
                 = ASAN_SHADOW_GRANULARITY cfg * 2 ^ (64 - ASAN_SHADOW_SCALE cfg)).
  { rewrite granularity_pow2 by exact Hmap. unfold mapping_ok in Hmap.
    rewrite <- Z.pow_add_r by lia.
    replace (ASAN_SHADOW_SCALE cfg + (64 - ASAN_SHADOW_SCALE cfg)) with 64 by lia.
    reflexivity. }
  assert (Hlast : forall i, 0 <= i < uptr_modulus ->
            i mod ASAN_SHADOW_GRANULARITY cfg = 0 ->
            i + ASAN_SHADOW_GRANULARITY cfg <= uptr_modulus).
  { intros i Hi Hal. apply Z.div_exact in Hal; [|lia].
    set (q := i / ASAN_SHADOW_GRANULARITY cfg) in *.
    set (Q := 2 ^ (64 - ASAN_SHADOW_SCALE cfg)) in *.
    assert (q < Q) by nia. nia. }
  induction fuel as [|fuel IH]; intros m sh i Hi Hal; cbn [redzone_loop];
    pose proof (Hlast i Hi Hal) as Hle;
    replace (i <? redzone_size) with true by (symmetry; apply Z.ltb_lt; lia);
    [reflexivity|].
  apply IH; [apply wrap_range|].
  destruct (Z.eq_dec (i + ASAN_SHADOW_GRANULARITY cfg) uptr_modulus) as [E | E].
  - rewrite E. unfold wrap. rewrite Z.mod_same by (unfold uptr_modulus; lia).
    apply Z.mod_0_l. lia.
  - rewrite wrap_small by lia.
    rewrite <- (Z.mul_1_l (ASAN_SHADOW_GRANULARITY cfg)) at 1.
    rewrite Z.mod_add by lia. exact Hal.
Qed.

Lemma PartialRightRedzone_diverges
    (cfg : config) (fuel : nat) (st : state) (aligned_addr size redzone_size value : Z) :
  mapping_ok cfg ->
  check_passes cfg (CanPoisonMemory st) ->
  uptr_modulus - ASAN_SHADOW_GRANULARITY cfg < redzone_size ->
  FastPoisonShadowPartialRightRedzone cfg fuel st aligned_addr size redzone_size value
  = OutOfFuel.
Proof.
  intros Hmap Hc Hbig.
  pose proof (granularity_bounds cfg Hmap) as HG.
  unfold FastPoisonShadowPartialRightRedzone. rewrite DCHECK_pass by exact Hc.
  rewrite redzone_loop_diverges; try assumption; [reflexivity | unfold uptr_modulus; lia |].
  apply Z.mod_0_l. lia.
Qed.

Lemma land_granule_mask (cfg : config) (size : Z) :
  mapping_ok cfg ->
  Z.land size (wrap (ASAN_SHADOW_GRANULARITY cfg - 1)) = size mod ASAN_SHADOW_GRANULARITY cfg.
Proof.
  intros Hmap. pose proof (granularity_bounds cfg Hmap) as HG.
  rewrite wrap_small by (unfold uptr_modulus; lia).
  rewrite granularity_pow2 by exact Hmap.
  rewrite <- Z.land_ones by apply Hmap.
  rewrite Z.ones_equiv. reflexivity.
Qed.

Lemma redzone_byte_class (cfg : config) (i size value : Z) :
  mapping_ok cfg -> ASAN_SHADOW_SCALE cfg <= 8 ->
  0 <= value <= 255 ->
  0 <= i -> i mod ASAN_SHADOW_GRANULARITY cfg = 0 ->
  i + ASAN_SHADOW_GRANULARITY cfg < uptr_modulus ->
  to_u8 (redzone_byte cfg i size value) = redzone_class cfg i size value.
Proof.
  intros Hmap H8 Hv Hi Hal Hfit.
  pose proof (granularity_bounds cfg Hmap) as HG.
  assert (HG8 : ASAN_SHADOW_GRANULARITY cfg <= 256).
  { rewrite granularity_pow2 by exact Hmap. change 256 with (2 ^ 8).
    apply pow2_le. unfold mapping_ok in Hmap. lia. }
  unfold redzone_byte, redzone_class.
  rewrite (wrap_small (i + ASAN_SHADOW_GRANULARITY cfg)) by lia.
  destruct (Z.leb_spec (i + ASAN_SHADOW_GRANULARITY cfg) size) as [Hlive | Hnot];
    [reflexivity|].
  destruct (Z.leb_spec size i) as [Hred | Hstr].
  - destruct (ASAN_SHADOW_GRANULARITY cfg =? 128); apply to_u8_small; lia.
  - destruct (poison_partial cfg); [|reflexivity].
    rewrite land_granule_mask by exact Hmap.
    assert (Em : size mod ASAN_SHADOW_GRANULARITY cfg = size - i).
    { apply Z.div_exact in Hal; [|lia].
      symmetry. apply (Z.mod_unique_pos _ _ (i / ASAN_SHADOW_GRANULARITY cfg)); lia. }
    rewrite Em, to_u8_wrap. apply to_u8_small. lia.
Qed.

Lemma PartialRightRedzone_run
    (cfg : config) (fuel : nat) (st : state) (aligned_addr size redzone_size value : Z) :
  mapping_ok cfg -> ASAN_SHADOW_SCALE cfg <= 8 ->
  0 <= redzone_size ->
  redzone_size + ASAN_SHADOW_GRANULARITY cfg <= uptr_modulus ->
  0 <= value <= 255 ->
  check_passes cfg (CanPoisonMemory st) ->
  redzone_size <= Z.of_nat fuel * ASAN_SHADOW_GRANULARITY cfg ->
  exists st',
    FastPoisonShadowPartialRightRedzone cfg fuel st aligned_addr size redzone_size value
      = Done st' /\
    forall i, 0 <= i < redzone_size -> i mod ASAN_SHADOW_GRANULARITY cfg = 0 ->
      shadow st' (wrap (MEM_TO_SHADOW cfg aligned_addr + i / ASAN_SHADOW_GRANULARITY cfg))
      = redzone_class cfg i size value.
Proof.
  intros Hmap H8 Hrs Hfit Hv Hc Hfuel.
  pose proof (granularity_bounds cfg Hmap) as HG.
  unfold FastPoisonShadowPartialRightRedzone. rewrite DCHECK_pass by exact Hc.
  destruct (redzone_loop_spec cfg Hmap size redzone_size value Hfit fuel 0
              (MEM_TO_SHADOW cfg aligned_addr) (shadow st) ltac:(lia) ltac:(lia))
    as (m' & Erun & Hhit & _).
  rewrite Erun. cbn [bind]. eexists. split; [reflexivity|].
  intros i Hi Hal. cbn [shadow set_shadow].
  assert (Ei : i = i / ASAN_SHADOW_GRANULARITY cfg * ASAN_SHADOW_GRANULARITY cfg).
  { apply Z.div_exact in Hal; lia. }
  assert (Hq : 0 <= i / ASAN_SHADOW_GRANULARITY cfg) by (apply Z.div_pos; lia).
  rewrite Hhit by lia.
  rewrite Z.add_0_l, <- Ei.
  apply redzone_byte_class; try assumption; lia.
Qed.

(** C5. A call of FastPoisonShadowPartialRightRedzone (its redzone ending at
    least one granule below [2^64], the loop given enough passes) ends
    normally, and for every granule offset [i] in [[0, redzone_size)] the
    shadow byte of that granule is: 0 if [i + G <= size]; [0xff] for
    [G = 128] and the tag otherwise if [i >= size]; and if
    [i < size < i + G], [G - size mod G] with [poison_partial] on and 0 with
    it off. With [G = 8], [size = 5] and one granule of redzone the byte is 3
    with the flag on and 0 with it off, and a second granule of redzone gets
    the tag. *)
Theorem PartialRightRedzone_bytes :
  (forall (cfg : config) (fuel : nat) (st : state)
          (aligned_addr size redzone_size value : Z),
     mapping_ok cfg -> ASAN_SHADOW_SCALE cfg <= 8 ->
     0 <= redzone_size ->
     redzone_size + ASAN_SHADOW_GRANULARITY cfg <= uptr_modulus ->
     0 <= value <= 255 ->
     check_passes cfg (CanPoisonMemory st) ->
     redzone_size <= Z.of_nat fuel * ASAN_SHADOW_GRANULARITY cfg ->
     exists st',
       FastPoisonShadowPartialRightRedzone cfg fuel st aligned_addr size redzone_size value
         = Done st' /\
       forall i, 0 <= i < redzone_size -> i mod ASAN_SHADOW_GRANULARITY cfg = 0 ->
         let byte :=
           shadow st' (wrap (MEM_TO_SHADOW cfg aligned_addr
                             + i / ASAN_SHADOW_GRANULARITY cfg)) in
         (i + ASAN_SHADOW_GRANULARITY cfg <= size -> byte = 0) /\
         (size <= i ->
            byte = if ASAN_SHADOW_GRANULARITY cfg =? 128 then 255 else value) /\
         (i < size < i + ASAN_SHADOW_GRANULARITY cfg ->
            byte = if poison_partial cfg
                   then ASAN_SHADOW_GRANULARITY cfg - size mod ASAN_SHADOW_GRANULARITY cfg
                   else 0)) /\
  (forall (cfg : config) (st : state) (aligned_addr value : Z),
     ASAN_SHADOW_SCALE cfg = 3 ->
     0 <= value <= 255 ->
     check_passes cfg (CanPoisonMemory st) ->
     (exists st',
        FastPoisonShadowPartialRightRedzone cfg 1 st aligned_addr 5 8 value = Done st' /\
        shadow st' (MEM_TO_SHADOW cfg aligned_addr)
        = if poison_partial cfg then 3 else 0) /\
     (exists st',
        FastPoisonShadowPartialRightRedzone cfg 2 st aligned_addr 5 16 value = Done st' /\
        shadow st' (MEM_TO_SHADOW cfg aligned_addr)
        = (if poison_partial cfg then 3 else 0) /\
        shadow st' (wrap (MEM_TO_SHADOW cfg aligned_addr + 1)) = value)).
Proof.
  split.
  - intros cfg fuel st aligned_addr size redzone_size value
           Hmap H8 Hrs Hfit Hv Hc Hfuel.
    destruct (PartialRightRedzone_run cfg fuel st aligned_addr size redzone_size value
                Hmap H8 Hrs Hfit Hv Hc Hfuel) as (st' & Erun & Hbytes).
    exists st'. split; [exact Erun|].
    intros i Hi Hal. cbv zeta. rewrite (Hbytes i Hi Hal). unfold redzone_class.
    repeat split; intros Hcase.
    + replace (i + ASAN_SHADOW_GRANULARITY cfg <=? size) with true
        by (symmetry; apply Z.leb_le; lia).
      reflexivity.
    + pose proof (granularity_bounds cfg Hmap) as HG.
      replace (i + ASAN_SHADOW_GRANULARITY cfg <=? size) with false
        by (symmetry; apply Z.leb_gt; lia).
      replace (size <=? i) with true by (symmetry; apply Z.leb_le; lia).
      reflexivity.
    + replace (i + ASAN_SHADOW_GRANULARITY cfg <=? size) with false
        by (symmetry; apply Z.leb_gt; lia).
      replace (size <=? i) with false by (symmetry; apply Z.leb_gt; lia).
      reflexivity.
  - intros cfg st aligned_addr value H3 Hv Hc.
    assert (Hmap : mapping_ok cfg) by (unfold mapping_ok; lia).
    assert (EG : ASAN_SHADOW_GRANULARITY cfg = 8)
      by (rewrite granularity_pow2, H3 by exact Hmap; reflexivity).
    split.
    + destruct (PartialRightRedzone_run cfg 1 st aligned_addr 5 8 value Hmap
                  ltac:(lia) ltac:(lia) ltac:(rewrite EG; unfold uptr_modulus; lia)
                  Hv Hc ltac:(rewrite EG; lia)) as (st' & Erun & Hbytes).
      exists st'. split; [exact Erun|].
      pose proof (Hbytes 0 ltac:(lia) ltac:(rewrite EG; reflexivity)) as H0.
      unfold redzone_class in H0. rewrite EG in H0.
      change (0 / 8) with 0 in H0. rewrite Z.add_0_r in H0.
      unfold MEM_TO_SHADOW in *. rewrite wrap_idem in H0. exact H0.
    + destruct (PartialRightRedzone_run cfg 2 st aligned_addr 5 16 value Hmap
                  ltac:(lia) ltac:(lia) ltac:(rewrite EG; unfold uptr_modulus; lia)
                  Hv Hc ltac:(rewrite EG; lia)) as (st' & Erun & Hbytes).
      exists st'. split; [exact Erun|].
      pose proof (Hbytes 0 ltac:(lia) ltac:(rewrite EG; reflexivity)) as H0.
      pose proof (Hbytes 8 ltac:(lia) ltac:(rewrite EG; reflexivity)) as H1.
      unfold redzone_class in H0, H1. rewrite EG in H0, H1.
      change (0 / 8) with 0 in H0. change (8 / 8) with 1 in H1.
      rewrite Z.add_0_r in H0.
      split; [|exact H1].
      unfold MEM_TO_SHADOW in *. rewrite wrap_idem in H0. exact H0.
Qed.

Lemma PartialRightRedzone_bytes_witness :
  exists st',
    FastPoisonShadowPartialRightRedzone (linux_x86_64 true true) 2 clean_state heap_addr 5 16 250
      = Done st' /\
    forall i, 0 <= i < 16 -> i mod ASAN_SHADOW_GRANULARITY (linux_x86_64 true true) = 0 ->
      let byte :=
        shadow st' (wrap (MEM_TO_SHADOW (linux_x86_64 true true) heap_addr
                          + i / ASAN_SHADOW_GRANULARITY (linux_x86_64 true true))) in
      (i + ASAN_SHADOW_GRANULARITY (linux_x86_64 true true) <= 5 -> byte = 0) /\
      (5 <= i ->
         byte = if ASAN_SHADOW_GRANULARITY (linux_x86_64 true true) =? 128 then 255 else 250) /\
      (i < 5 < i + ASAN_SHADOW_GRANULARITY (linux_x86_64 true true) ->
         byte = if poison_partial (linux_x86_64 true true)
                then ASAN_SHADOW_GRANULARITY (linux_x86_64 true true)
                     - 5 mod ASAN_SHADOW_GRANULARITY (linux_x86_64 true true)
                else 0).
Proof.
  apply (proj1 PartialRightRedzone_bytes (linux_x86_64 true true) 2%nat clean_state
           heap_addr 5 16 250).
  - unfold mapping_ok. simpl. lia.
  - simpl. lia.
  - lia.
  - vm_compute. discriminate.
  - lia.
  - right. reflexivity.
  - vm_compute. discriminate.
Defined.

(** ** The debug checks *)

Lemma fill_loop_not_abort (B E : Z) (fuel : nat) :
  forall (i : Z) (m : shadow_mem), fill_loop fuel m B E i <> Abort.
Proof.
  induction fuel as [|fuel IH]; intros i m; cbn [fill_loop]; [discriminate|].
  destruct (fill_step m B E i); try discriminate. apply IH.
Qed.

Lemma poison_writes_not_abort (cfg : config) (aligned_beg aligned_size value : Z)
    (m : shadow_mem) :
  poison_writes cfg aligned_beg aligned_size value m <> Abort.
Proof.
  unfold poison_writes.
  destruct (negb (value =? 0)); [discriminate|].
  destruct (8 <=? _); [apply fill_loop_not_abort | discriminate].
Qed.

Lemma redzone_loop_not_abort (cfg : config) (size redzone_size value : Z) (fuel : nat) :
  forall (m : shadow_mem) (sh i : Z),
    redzone_loop cfg fuel m sh i size redzone_size value <> Abort.
Proof.
  induction fuel as [|fuel IH]; intros m sh i; cbn [redzone_loop];
    destruct (i <? redzone_size); try discriminate. apply IH.
Qed.

Lemma bind_not_abort (r : result shadow_mem) (st : state) :
  r <> Abort -> (m' <- r ;; Done (set_shadow st m')) <> Abort.
Proof.
  destruct r; cbn [bind]; intros H; try discriminate.
  exfalso. apply H. reflexivity.
Qed.

Lemma FastPoisonShadow_abort_iff
    (cfg : config) (st : state) (aligned_beg aligned_size value : Z) :
  SANITIZER_DEBUG cfg = true ->
  FastPoisonShadow cfg st aligned_beg aligned_size value = Abort
  <-> value <> 0 /\ CanPoisonMemory st = false.
Proof.
  intros Hd. rewrite FastPoisonShadow_writes. unfold DCHECK. rewrite Hd. cbn [andb].
  destruct (Z.eqb_spec value 0) as [Ev | Ev]; cbn [orb negb].
  - split.
    + intros H. exfalso. revert H. apply bind_not_abort, poison_writes_not_abort.
    + intros [H _]. contradiction.
  - destruct (CanPoisonMemory st); cbn [negb].
    + split.
      * intros H. exfalso. revert H. apply bind_not_abort, poison_writes_not_abort.
      * intros [_ H]. discriminate.
    + split; [intros _; split; [exact Ev | reflexivity] | reflexivity].
Qed.

Lemma PartialRightRedzone_abort_iff
    (cfg : config) (fuel : nat) (st : state) (aligned_addr size redzone_size value : Z) :
  SANITIZER_DEBUG cfg = true ->
  FastPoisonShadowPartialRightRedzone cfg fuel st aligned_addr size redzone_size value = Abort
  <-> CanPoisonMemory st = false.
Proof.
  intros Hd. unfold FastPoisonShadowPartialRightRedzone, DCHECK. rewrite Hd. cbn [andb].
  destruct (CanPoisonMemory st); cbn [negb].
  - split; [|discriminate].
    intros H. exfalso. revert H. apply bind_not_abort, redzone_loop_not_abort.
  - split; reflexivity.
Qed.

Lemma FastPoisonShadow_unchecked
    (cfg : config) (st : state) (aligned_beg aligned_size value : Z) :
  FastPoisonShadow (with_debug cfg false) st aligned_beg aligned_size value <> Abort /\
  FastPoisonShadow (with_debug cfg false) st aligned_beg aligned_size value
  = (st' <- FastPoisonShadow (with_debug cfg true) (SetCanPoisonMemory st true)
              aligned_beg aligned_size value ;;
     Done (SetCanPoisonMemory st' (CanPoisonMemory st))).
Proof.
  rewrite !FastPoisonShadow_writes. unfold DCHECK.
  cbn [SANITIZER_DEBUG with_debug andb CanPoisonMemory SetCanPoisonMemory
       can_poison_memory shadow].
  rewrite orb_true_r. cbn [negb].
  change (poison_writes (with_debug cfg true) aligned_beg aligned_size value (shadow st))
    with (poison_writes (with_debug cfg false) aligned_beg aligned_size value (shadow st)).
  split.
  - apply bind_not_abort, poison_writes_not_abort.
  - destruct (poison_writes (with_debug cfg false) aligned_beg aligned_size value (shadow st));
      reflexivity.
Qed.

Lemma PartialRightRedzone_unchecked
    (cfg : config) (fuel : nat) (st : state) (aligned_addr size redzone_size value : Z) :
  FastPoisonShadowPartialRightRedzone (with_debug cfg false) fuel st
    aligned_addr size redzone_size value <> Abort /\
  FastPoisonShadowPartialRightRedzone (with_debug cfg false) fuel st
    aligned_addr size redzone_size value
  = (st' <- FastPoisonShadowPartialRightRedzone (with_debug cfg true) fuel
              (SetCanPoisonMemory st true) aligned_addr size redzone_size value ;;
     Done (SetCanPoisonMemory st' (CanPoisonMemory st))).
Proof.
  unfold FastPoisonShadowPartialRightRedzone, DCHECK.
  cbn [SANITIZER_DEBUG with_debug andb CanPoisonMemory SetCanPoisonMemory
       can_poison_memory shadow negb].
  change (redzone_loop (with_debug cfg true) fuel (shadow st)
            (MEM_TO_SHADOW (with_debug cfg true) aligned_addr) 0 size redzone_size value)
    with (redzone_loop (with_debug cfg false) fuel (shadow st)
            (MEM_TO_SHADOW (with_debug cfg false) aligned_addr) 0 size redzone_size value).
  split.
  - apply bind_not_abort, redzone_loop_not_abort.
  - destruct (redzone_loop (with_debug cfg false) fuel (shadow st)
                (MEM_TO_SHADOW (with_debug cfg false) aligned_addr) 0 size redzone_size value);
      reflexivity.
Qed.

(** C9. Built with the debug checks, FastPoisonShadow aborts exactly when the
    value is nonzero and the poisoning toggle is off, and
    FastPoisonShadowPartialRightRedzone aborts exactly when the toggle is
    off. Built without them, neither function aborts, and each does to the
    shadow, in any state, what the debug build does with the toggle on. *)
Theorem debug_checks_policy :
  (forall cfg st aligned_beg aligned_size value,
     SANITIZER_DEBUG cfg = true ->
     (FastPoisonShadow cfg st aligned_beg aligned_size value = Abort
      <-> value <> 0 /\ CanPoisonMemory st = false)) /\
  (forall cfg fuel st aligned_addr size redzone_size value,
     SANITIZER_DEBUG cfg = true ->
     (FastPoisonShadowPartialRightRedzone cfg fuel st aligned_addr size redzone_size value
        = Abort
      <-> CanPoisonMemory st = false)) /\
  (forall cfg st aligned_beg aligned_size value,
     FastPoisonShadow (with_debug cfg false) st aligned_beg aligned_size value <> Abort /\
     FastPoisonShadow (with_debug cfg false) st aligned_beg aligned_size value
     = (st' <- FastPoisonShadow (with_debug cfg true) (SetCanPoisonMemory st true)
                 aligned_beg aligned_size value ;;
        Done (SetCanPoisonMemory st' (CanPoisonMemory st)))) /\
  (forall cfg fuel st aligned_addr size redzone_size value,
     FastPoisonShadowPartialRightRedzone (with_debug cfg false) fuel st
       aligned_addr size redzone_size value <> Abort /\
     FastPoisonShadowPartialRightRedzone (with_debug cfg false) fuel st
       aligned_addr size redzone_size value
     = (st' <- FastPoisonShadowPartialRightRedzone (with_debug cfg true) fuel
                 (SetCanPoisonMemory st true) aligned_addr size redzone_size value ;;
        Done (SetCanPoisonMemory st' (CanPoisonMemory st)))).
Proof.
  split; [|split; [|split]].
  - intros. apply FastPoisonShadow_abort_iff. assumption.
  - intros. apply PartialRightRedzone_abort_iff. assumption.
  - intros. apply FastPoisonShadow_unchecked.
  - intros. apply PartialRightRedzone_unchecked.
Qed.

(** * Further properties of the two functions *)

(** ** The whole effect of FastPoisonShadow on the shadow *)

Lemma inside_shadow_iff (B N a : Z) :
  0 <= N < uptr_modulus ->
  (1 <=? wrap (B + N - a)) && (wrap (B + N - a) <=? N) = (wrap (a - B) <? N).
Proof.
  intros HN.
  destruct (Z.ltb_spec (wrap (a - B)) N) as [Hin | Hout].
  - assert (H : 1 <= wrap (B + N - a) <= N) by unwrap.
    replace (1 <=? wrap (B + N - a)) with true by (symmetry; apply Z.leb_le; lia).
    replace (wrap (B + N - a) <=? N) with true by (symmetry; apply Z.leb_le; lia).
    reflexivity.
  - assert (H : wrap (B + N - a) = 0 \/ N < wrap (B + N - a)) by unwrap.
    destruct H as [H | H].
    + rewrite H. reflexivity.
    + replace (wrap (B + N - a) <=? N) with false by (symmetry; apply Z.leb_gt; lia).
      apply andb_false_r.
Qed.

Lemma distance_inside (B N a : Z) :
  0 <= N < uptr_modulus -> wrap (a - B) < N ->
  wrap (B + N - a) = N - wrap (a - B).
Proof. intros HN Hin. unwrap. Qed.


(** What a call leaves in every shadow byte, for each fill value. *)
Lemma FastPoisonShadow_spec
    (cfg : config) (st : state) (aligned_beg aligned_size value : Z) :
  mapping_ok cfg ->
  aligned_range cfg aligned_beg aligned_size ->
  ASAN_SHADOW_GRANULARITY cfg <= aligned_beg + aligned_size ->
  0 <= value <= 255 ->
  check_passes cfg ((value =? 0) || CanPoisonMemory st) ->
  value <> 0 \/ granules cfg aligned_size <= 7 \/
    (shadow_span_ok cfg aligned_beg aligned_size /\ granules cfg aligned_size < 2 ^ 30) ->
  exists st',
    FastPoisonShadow cfg st aligned_beg aligned_size value = Done st' /\
    can_poison_memory st' = can_poison_memory st /\
    forall a,
      shadow st' a
      = if wrap (a - MEM_TO_SHADOW cfg aligned_beg) <? granules cfg aligned_size
        then stored_byte value
               (granules cfg aligned_size - wrap (a - MEM_TO_SHADOW cfg aligned_beg))
        else shadow st a.
Proof.
  intros Hmap Hr Hne Hv Hc Hdom.
  pose proof (granules_range cfg Hmap aligned_size ltac:(apply Hr)) as HN.
  destruct (Z.eq_dec value 0) as [-> | Hnz].
  - destruct (FastPoisonShadow_zero_spec cfg st aligned_beg aligned_size Hmap Hr Hne
                ltac:(destruct Hdom as [H | H]; [contradiction | exact H]))
      as (st' & Erun & Ht & Hm).
    exists st'. split; [exact Erun|]. split; [exact Ht|].
    intros a. rewrite Hm, inside_shadow_iff by exact HN.
    destruct (Z.ltb_spec (wrap (a - MEM_TO_SHADOW cfg aligned_beg))
                         (granules cfg aligned_size)) as [Hin | Hout]; [|reflexivity].
    rewrite distance_inside by assumption. reflexivity.
  - unfold FastPoisonShadow. rewrite DCHECK_pass by exact Hc.
    replace (value =? 0) with false by (symmetry; apply Z.eqb_neq; exact Hnz).
    cbn [negb]. rewrite shadow_length_eq by assumption.
    eexists. split; [reflexivity|]. split; [reflexivity|].
    intros a. cbn [shadow set_shadow]. unfold memset, stored_byte.
    replace (value =? 0) with false by (symmetry; apply Z.eqb_neq; exact Hnz).
    destruct (wrap (a - MEM_TO_SHADOW cfg aligned_beg) <? granules cfg aligned_size);
      [|reflexivity].
    destruct (Z.leb_spec value 7).
    + rewrite !to_u8_small; [reflexivity | lia |]. rewrite to_u8_small; lia.
    + apply to_u8_small. lia.
Qed.

Ltac sample_side :=
  first
    [ solve [unfold mapping_ok; simpl; lia]
    | solve [unfold aligned_range, granule_aligned; vm_compute; intuition discriminate]
    | solve [unfold shadow_span_ok; vm_compute; split; [reflexivity | discriminate]]
    | solve [right; reflexivity]
    | solve [vm_compute; reflexivity]
    | solve [vm_compute; discriminate]
    | solve [vm_compute; intuition discriminate]
    | lia ].





(** X3. With value 0, on a range of [N] granules (below [2^30], shadow well
    placed) the [k]-th shadow byte of the range holds
    [64 - floor(log2 (N - k))]: the byte depends only on the distance to the
    end of the range, and drops by one each time that distance doubles. *)
Theorem FastPoisonShadow_zero_gradient
    (cfg : config) (st : state) (aligned_beg aligned_size : Z) :
  mapping_ok cfg ->
  aligned_range cfg aligned_beg aligned_size ->
  shadow_span_ok cfg aligned_beg aligned_size ->
  0 < aligned_size ->
  granules cfg aligned_size < 2 ^ 30 ->
  exists st',
    FastPoisonShadow cfg st aligned_beg aligned_size 0 = Done st' /\
    forall k, 0 <= k < granules cfg aligned_size ->
      shadow st' (wrap (MEM_TO_SHADOW cfg aligned_beg + k))
      = 64 - Z.log2 (granules cfg aligned_size - k).
Proof.
  intros Hmap Hr Hspan Hpos H30.
  pose proof (granularity_bounds cfg Hmap) as HG.
  pose proof (granules_range cfg Hmap aligned_size ltac:(apply Hr)) as HN.
  assert (Hne : ASAN_SHADOW_GRANULARITY cfg <= aligned_beg + aligned_size).
  { destruct Hr as (Hb & _ & _ & _ & Has).
    pose proof (aligned_multiple cfg Hmap aligned_size Has) as Es.
    assert (0 < aligned_size / ASAN_SHADOW_GRANULARITY cfg) by nia. nia. }
  destruct (FastPoisonShadow_spec cfg st aligned_beg aligned_size 0
              Hmap Hr Hne ltac:(lia) ltac:(apply check_passes_zero)
              ltac:(right; right; split; assumption)) as (st' & Erun & _ & Hm).
  exists st'. split; [exact Erun|].
  intros k Hk. rewrite Hm, wrap_wrap_sub_l.
  replace (MEM_TO_SHADOW cfg aligned_beg + k - MEM_TO_SHADOW cfg aligned_beg) with k by lia.
  rewrite (wrap_small k) by lia.
  replace (k <? granules cfg aligned_size) with true by (symmetry; apply Z.ltb_lt; lia).
  reflexivity.
Qed.

Lemma FastPoisonShadow_zero_gradient_witness :
  exists st',
    FastPoisonShadow (linux_x86_64 true true) clean_state heap_addr 160 0 = Done st' /\
    forall k, 0 <= k < granules (linux_x86_64 true true) 160 ->
      shadow st' (wrap (MEM_TO_SHADOW (linux_x86_64 true true) heap_addr + k))
      = 64 - Z.log2 (granules (linux_x86_64 true true) 160 - k).
Proof.
  apply (FastPoisonShadow_zero_gradient (linux_x86_64 true true) clean_state heap_addr 160);
    sample_side.
Defined.

(** ** The bytes FastPoisonShadow can store *)

Lemma stored_byte_bounds (value d : Z) :
  0 <= value <= 255 -> 1 <= d < 2 ^ 30 -> 8 <= stored_byte value d <= 255.
Proof.
  intros Hv Hd. unfold stored_byte.
  destruct (Z.eqb_spec value 0) as [E | E].
  - pose proof (gradient_bounds d Hd) as H. unfold gradient in H. lia.
  - destruct (Z.leb_spec value 7); lia.
Qed.

(** X4. Whatever the fill value, FastPoisonShadow leaves in every shadow byte
    of the range a byte in [8, 255]: it never stores 0 nor one of the codes
    1..7 (values 1..7 are moved to 65..71, value 0 becomes the gradient). *)
Theorem FastPoisonShadow_never_below_8
    (cfg : config) (st : state) (aligned_beg aligned_size value : Z) :
  mapping_ok cfg ->
  aligned_range cfg aligned_beg aligned_size ->
  shadow_span_ok cfg aligned_beg aligned_size ->
  0 < aligned_size ->
  granules cfg aligned_size < 2 ^ 30 ->
  0 <= value <= 255 ->
  check_passes cfg ((value =? 0) || CanPoisonMemory st) ->
  exists st',
    FastPoisonShadow cfg st aligned_beg aligned_size value = Done st' /\
    forall x, aligned_beg <= x < aligned_beg + aligned_size ->
      8 <= shadow st' (MEM_TO_SHADOW cfg x) <= 255.
Proof.
  intros Hmap Hr Hspan Hpos H30 Hv Hc.
  pose proof (granularity_bounds cfg Hmap) as HG.
  assert (Hne : ASAN_SHADOW_GRANULARITY cfg <= aligned_beg + aligned_size).
  { destruct Hr as (Hb & _ & _ & _ & Has).
    pose proof (aligned_multiple cfg Hmap aligned_size Has) as Es.
    assert (0 < aligned_size / ASAN_SHADOW_GRANULARITY cfg) by nia. nia. }
  destruct (FastPoisonShadow_spec cfg st aligned_beg aligned_size value
              Hmap Hr Hne Hv Hc ltac:(right; right; split; assumption))
    as (st' & Erun & _ & Hm).
  exists st'. split; [exact Erun|].
  intros x Hx. rewrite Hm.
  pose proof (shadow_of_member cfg Hmap aligned_beg aligned_size x Hr Hx) as Hin.
  pose proof (wrap_range (MEM_TO_SHADOW cfg x - MEM_TO_SHADOW cfg aligned_beg)) as Hw.
  replace (wrap (MEM_TO_SHADOW cfg x - MEM_TO_SHADOW cfg aligned_beg)
           <? granules cfg aligned_size)
    with true by (symmetry; apply Z.ltb_lt; exact Hin).
  apply stored_byte_bounds; [exact Hv | lia].
Qed.

Lemma FastPoisonShadow_never_below_8_witness :
  exists st',
    FastPoisonShadow (linux_x86_64 true true) clean_state heap_addr 160 3 = Done st' /\
    forall x, heap_addr <= x < heap_addr + 160 ->
      8 <= shadow st' (MEM_TO_SHADOW (linux_x86_64 true true) x) <= 255.
Proof.
  apply (FastPoisonShadow_never_below_8 (linux_x86_64 true true) clean_state heap_addr 160 3);
    sample_side.
Defined.

(** X5. The fill values 1..7 are not kept apart from 65..71: for [value] in
    [1,7], a call with [value] and a call with [72 - value] end alike and
    leave the same shadow, on every range and in every state. *)
Theorem FastPoisonShadow_low_values_alias
    (cfg : config) (st : state) (aligned_beg aligned_size value : Z) :
  1 <= value <= 7 ->
  outcome_eq (FastPoisonShadow cfg st aligned_beg aligned_size value)
             (FastPoisonShadow cfg st aligned_beg aligned_size (72 - value)).
Proof.
  intros Hv. unfold FastPoisonShadow, DCHECK.
  replace (value =? 0) with false by (symmetry; apply Z.eqb_neq; lia).
  replace (72 - value =? 0) with false by (symmetry; apply Z.eqb_neq; lia).
  replace (value <=? 7) with true by (symmetry; apply Z.leb_le; lia).
  replace (72 - value <=? 7) with false by (symmetry; apply Z.leb_gt; lia).
  destruct (SANITIZER_DEBUG cfg && negb (false || CanPoisonMemory st)); [exact I|].
  cbn [negb outcome_eq shadow set_shadow can_poison_memory].
  split; [reflexivity|].
  intros a. unfold memset.
  rewrite !(to_u8_small (72 - value)) by lia. reflexivity.
Qed.

Lemma FastPoisonShadow_low_values_alias_witness :
  outcome_eq (FastPoisonShadow (linux_x86_64 true true) clean_state heap_addr 160 3)
             (FastPoisonShadow (linux_x86_64 true true) clean_state heap_addr 160 (72 - 3)).
Proof.
  apply (FastPoisonShadow_low_values_alias (linux_x86_64 true true) clean_state
           heap_addr 160 3).
  lia.
Defined.

(** ** Calls that follow one another *)

(** X6. Of two calls of FastPoisonShadow on the same range the second
    decides: the calls with [value1] and then [value2] leave the state a
    single call with [value2] leaves (for value 0 on ranges below [2^30]
    granules with a well placed shadow). Poisoning then unpoisoning a range
    is unpoisoning it, and the other way round. *)
Theorem FastPoisonShadow_last_call_wins
    (cfg : config) (st : state) (aligned_beg aligned_size value1 value2 : Z) :
  mapping_ok cfg ->
  aligned_range cfg aligned_beg aligned_size ->
  ASAN_SHADOW_GRANULARITY cfg <= aligned_beg + aligned_size ->
  0 <= value1 <= 255 -> 0 <= value2 <= 255 ->
  check_passes cfg (CanPoisonMemory st) ->
  (value1 <> 0 /\ value2 <> 0) \/ granules cfg aligned_size <= 7 \/
    (shadow_span_ok cfg aligned_beg aligned_size /\ granules cfg aligned_size < 2 ^ 30) ->
  outcome_eq
    (st1 <- FastPoisonShadow cfg st aligned_beg aligned_size value1 ;;
     FastPoisonShadow cfg st1 aligned_beg aligned_size value2)
    (FastPoisonShadow cfg st aligned_beg aligned_size value2).
Proof.
  intros Hmap Hr Hne Hv1 Hv2 Hc Hdom.
  assert (Hd1 : value1 <> 0 \/ granules cfg aligned_size <= 7 \/
                (shadow_span_ok cfg aligned_beg aligned_size /\
                 granules cfg aligned_size < 2 ^ 30))
    by (destruct Hdom as [[H _] | H]; [left; exact H | right; exact H]).
  assert (Hd2 : value2 <> 0 \/ granules cfg aligned_size <= 7 \/
                (shadow_span_ok cfg aligned_beg aligned_size /\
                 granules cfg aligned_size < 2 ^ 30))
    by (destruct Hdom as [[_ H] | H]; [left; exact H | right; exact H]).
  destruct (FastPoisonShadow_spec cfg st aligned_beg aligned_size value1
              Hmap Hr Hne Hv1 (check_passes_tagged cfg _ value1 Hc) Hd1)
    as (st1 & E1 & Ht1 & Hm1).
  assert (Hc1 : check_passes cfg (CanPoisonMemory st1)).
  { unfold CanPoisonMemory in *. rewrite Ht1. exact Hc. }
  destruct (FastPoisonShadow_spec cfg st1 aligned_beg aligned_size value2
              Hmap Hr Hne Hv2 (check_passes_tagged cfg _ value2 Hc1) Hd2)
    as (st2 & E2 & Ht2 & Hm2).
  destruct (FastPoisonShadow_spec cfg st aligned_beg aligned_size value2
              Hmap Hr Hne Hv2 (check_passes_tagged cfg _ value2 Hc) Hd2)
    as (st2' & E2' & Ht2' & Hm2').
  rewrite E1. cbn [bind]. rewrite E2, E2'. cbn [outcome_eq].
  split; [congruence|].
  intros a. rewrite Hm2, Hm2', Hm1.
  destruct (wrap (a - MEM_TO_SHADOW cfg aligned_beg) <? granules cfg aligned_size);
    reflexivity.
Qed.

Lemma FastPoisonShadow_last_call_wins_witness :
  outcome_eq
    (st1 <- FastPoisonShadow (linux_x86_64 true true) clean_state heap_addr 160 250 ;;
     FastPoisonShadow (linux_x86_64 true true) st1 heap_addr 160 0)
    (FastPoisonShadow (linux_x86_64 true true) clean_state heap_addr 160 0).
Proof.
  apply (FastPoisonShadow_last_call_wins (linux_x86_64 true true) clean_state
           heap_addr 160 250 0); sample_side.
Defined.

(** ** How long the doubling loop runs *)

Lemma fill_loop_fuel_mono (B E : Z) (fuel : nat) :
  forall (i : Z) (m : shadow_mem),
    fill_loop fuel m B E i <> OutOfFuel ->
    forall fuel', (fuel <= fuel')%nat ->
      fill_loop fuel' m B E i = fill_loop fuel m B E i.
Proof.
  induction fuel as [|fuel IH]; intros i m Hend fuel' Hle.
  - exfalso. apply Hend. reflexivity.
  - destruct fuel' as [|fuel']; [lia|].
    cbn [fill_loop] in *.
    destruct (fill_step m B E i) as [m' | m' |]; try reflexivity.
    apply IH; [exact Hend | lia].
Qed.

(** X7. The loop [for (uptr i = 3; ; ++i)], which has no exit condition of
    its own, makes at most 29 passes on any input: with a budget of 29 passes
    or more it always comes to an end (leaving the loop or reaching the
    undefined shift), and a larger budget changes nothing. *)
Theorem fill_loop_at_most_29_passes
    (fuel : nat) (m : shadow_mem) (shadow_beg shadow_end : Z) :
  (29 <= fuel)%nat ->
  fill_loop fuel m shadow_beg shadow_end 3 <> OutOfFuel /\
  fill_loop fuel m shadow_beg shadow_end 3 = fill_loop 29 m shadow_beg shadow_end 3.
Proof.
  intros Hfuel.
  assert (H29 : fill_loop 29 m shadow_beg shadow_end 3 <> OutOfFuel)
    by (apply fill_loop_terminates; vm_compute; [discriminate | lia]).
  rewrite (fill_loop_fuel_mono shadow_beg shadow_end 29 3 m H29 fuel Hfuel).
  split; [exact H29 | reflexivity].
Qed.

Lemma fill_loop_at_most_29_passes_witness :
  fill_loop fill_loop_budget (shadow clean_state) 13213466853376 13213466853396 3
    <> OutOfFuel /\
  fill_loop fill_loop_budget (shadow clean_state) 13213466853376 13213466853396 3
  = fill_loop 29 (shadow clean_state) 13213466853376 13213466853396 3.
Proof.
  apply (fill_loop_at_most_29_passes fill_loop_budget (shadow clean_state)
           13213466853376 13213466853396).
  vm_compute. lia.
Defined.

Lemma fill_passes_whole_blocks (B N : Z) (n : nat) :
  forall (i : Z) (m : shadow_mem),
    0 <= B -> B + N < uptr_modulus ->
    3 <= i -> i + Z.of_nat n <= 29 -> 2 ^ (i + Z.of_nat n) <= N ->
    exists m', fill_passes n m B (B + N) i = Some m'.
Proof.
  induction n as [|n IH]; intros i m HB Htop Hi Hn HN.
  - exists m. reflexivity.
  - cbn [fill_passes].
    assert (Hp : 2 ^ (i + 1) <= 2 ^ (i + Z.of_nat (S n))) by (apply pow2_le; lia).
    rewrite fill_step_continue by lia.
    rewrite (wrap_small (i + 1)) by (unfold uptr_modulus; lia).
    apply IH; try lia.
    replace (i + 1 + Z.of_nat n) with (i + Z.of_nat (S n)) by lia. exact HN.
Qed.

(** X8. With value 0, on a range of [8 <= N < 2^30] granules (shadow well
    placed) the loop makes [floor(log2 N) - 3] passes that fill a whole block
    and go round again, and the pass after them, with [i = floor(log2 N)],
    fills the rest and leaves the loop: [floor(log2 N) - 2] calls of memset
    in all. *)
Theorem fill_loop_pass_count
    (cfg : config) (m : shadow_mem) (aligned_beg aligned_size : Z) :
  mapping_ok cfg ->
  aligned_range cfg aligned_beg aligned_size ->
  shadow_span_ok cfg aligned_beg aligned_size ->
  8 <= granules cfg aligned_size < 2 ^ 30 ->
  exists m1,
    fill_passes (Z.to_nat (Z.log2 (granules cfg aligned_size) - 3)) m
                (MEM_TO_SHADOW cfg aligned_beg)
                (MEM_TO_SHADOW cfg aligned_beg + granules cfg aligned_size) 3
      = Some m1 /\
    exists m2,
      fill_step m1 (MEM_TO_SHADOW cfg aligned_beg)
                (MEM_TO_SHADOW cfg aligned_beg + granules cfg aligned_size)
                (Z.log2 (granules cfg aligned_size))
      = Break m2.
Proof.
  intros Hmap Hr (Htop & Hroom) HN.
  set (B := MEM_TO_SHADOW cfg aligned_beg) in *.
  set (N := granules cfg aligned_size) in *.
  assert (HB : 0 <= B) by (subst B; unfold MEM_TO_SHADOW; apply wrap_range).
  assert (HL3 : 3 <= Z.log2 N).
  { change 3 with (Z.log2 8). apply Z.log2_le_mono. lia. }
  assert (HL29 : Z.log2 N < 30) by (apply Z.log2_lt_pow2; lia).
  pose proof (Z.log2_spec N ltac:(lia)) as Hspec.
  rewrite <- Z.add_1_r in Hspec.
  destruct (fill_passes_whole_blocks B N (Z.to_nat (Z.log2 N - 3)) 3 m HB Htop
              ltac:(lia) ltac:(lia)
              ltac:(replace (3 + Z.of_nat (Z.to_nat (Z.log2 N - 3))) with (Z.log2 N) by lia;
                    lia)) as (m1 & E1).
  exists m1. split; [exact E1|].
  eexists. apply fill_step_break; lia.
Qed.

Lemma fill_loop_pass_count_witness :
  exists m1,
    fill_passes (Z.to_nat (Z.log2 (granules (linux_x86_64 true true) 160) - 3))
                (shadow clean_state)
                (MEM_TO_SHADOW (linux_x86_64 true true) heap_addr)
                (MEM_TO_SHADOW (linux_x86_64 true true) heap_addr
                 + granules (linux_x86_64 true true) 160) 3
      = Some m1 /\
    exists m2,
      fill_step m1 (MEM_TO_SHADOW (linux_x86_64 true true) heap_addr)
                (MEM_TO_SHADOW (linux_x86_64 true true) heap_addr
                 + granules (linux_x86_64 true true) 160)
                (Z.log2 (granules (linux_x86_64 true true) 160))
      = Break m2.
Proof.
  apply (fill_loop_pass_count (linux_x86_64 true true) (shadow clean_state) heap_addr 160);
    sample_side.
Defined.

(** ** A shadow too close to address 0 *)

(** A pass whose block would begin below address 0: [bBegin] wraps round to
    the top of the address space, the test [bBegin <= shadow_beg] fails and
    the pass writes its block there. *)
Lemma fill_step_underflow (m : shadow_mem) (B N i : Z) :
  0 <= B -> 0 <= N ->
  3 <= i <= 29 -> B + N + 1 < 2 ^ (i + 1) ->
  fill_step m B (B + N) i
  = Continue (memset m (B + N + 1 + uptr_modulus - 2 ^ (i + 1)) (64 - i) (2 ^ i)).
Proof.
  intros HB HN Hi Hlow.
  assert (HP : 0 < 2 ^ i) by (apply pow2_pos; lia).
  assert (HP2 : 2 ^ (i + 1) = 2 * 2 ^ i) by (apply pow2_succ; lia).
  assert (HP30 : 2 ^ i <= 2 ^ 29) by (apply pow2_le; lia).
  change (2 ^ 29) with 536870912 in HP30.
  unfold fill_step.
  rewrite (wrap_small (i + 1)) by (unfold uptr_modulus; lia).
  rewrite !shl_int_one by lia. unfold int_to_uptr.
  rewrite !wrap_wrap_sub_r, !wrap_wrap_add.
  replace (wrap (B + N - 2 ^ (i + 1) + 1)) with (B + N + 1 + uptr_modulus - 2 ^ (i + 1))
    by (rewrite HP2; set (P := 2 ^ i) in *; unwrap).
  rewrite (wrap_small (64 - i)), (wrap_small (2 ^ i)) by (unfold uptr_modulus; lia).
  replace (B + N + 1 + uptr_modulus - 2 ^ (i + 1) <=? B) with false
    by (symmetry; apply Z.leb_gt; unfold uptr_modulus; lia).
  reflexivity.
Qed.

Lemma fill_loop_never_leaves (B N : Z) (fuel : nat) :
  forall (i : Z) (m : shadow_mem),
    0 <= B -> 0 <= N -> B + N + 2147483649 < uptr_modulus ->
    3 <= i <= 31 ->
    (forall j, i <= j <= 29 -> 2 ^ (j + 1) <= N \/ B + N + 1 < 2 ^ (j + 1)) ->
    (Z.to_nat (32 - i) <= fuel)%nat ->
    fill_loop fuel m B (B + N) i = Undefined.
Proof.
  induction fuel as [|fuel IH]; intros i m HB HN Htop Hi Hall Hfuel; [lia|].
  cbn [fill_loop].
  assert (Hc : i <= 29 \/ i = 30 \/ i = 31) by lia.
  destruct Hc as [Hc | [-> | ->]].
  - destruct (Hall i ltac:(lia)) as [Hfits | Hlow].
    + rewrite fill_step_continue by lia.
      rewrite (wrap_small (i + 1)) by (unfold uptr_modulus; lia).
      apply IH; try lia. intros j Hj. apply Hall. lia.
    + rewrite fill_step_underflow by lia.
      rewrite (wrap_small (i + 1)) by (unfold uptr_modulus; lia).
      apply IH; try lia. intros j Hj. apply Hall. lia.
  - rewrite fill_step_30 by lia.
    change (wrap (30 + 1)) with 31.
    apply IH; try lia.
  - rewrite fill_step_31. reflexivity.
Qed.

(** X9. With value 0, when the shadow of a range of [8 <= N < 2^30] granules
    begins so low that the last block of the loop would begin below address 0
    ([shadow_end + 1 < 2^(floor(log2 N) + 1)]), the block start wraps round,
    the loop is never left and the call runs into the undefined shift. *)
Theorem FastPoisonShadow_zero_low_shadow_undefined
    (cfg : config) (st : state) (aligned_beg aligned_size : Z) :
  mapping_ok cfg ->
  aligned_range cfg aligned_beg aligned_size ->
  8 <= granules cfg aligned_size < 2 ^ 30 ->
  MEM_TO_SHADOW cfg aligned_beg + granules cfg aligned_size + 1
    < 2 ^ (Z.log2 (granules cfg aligned_size) + 1) ->
  FastPoisonShadow cfg st aligned_beg aligned_size 0 = Undefined.
Proof.
  intros Hmap Hr HN Hlow.
  pose proof (granularity_bounds cfg Hmap) as HG.
  assert (Hne : ASAN_SHADOW_GRANULARITY cfg <= aligned_beg + aligned_size).
  { destruct Hr as (Hb & _ & _ & _ & Has).
    pose proof (aligned_multiple cfg Hmap aligned_size Has) as Es.
    unfold granules in HN. nia. }
  unfold FastPoisonShadow.
  rewrite DCHECK_pass by apply check_passes_zero.
  change (negb (0 =? 0)) with false. cbv iota.
  rewrite shadow_length_eq, shadow_end_eq by assumption.
  set (B := MEM_TO_SHADOW cfg aligned_beg) in *.
  set (N := granules cfg aligned_size) in *.
  assert (HB : 0 <= B) by (subst B; unfold MEM_TO_SHADOW; apply wrap_range).
  assert (HL3 : 3 <= Z.log2 N).
  { change 3 with (Z.log2 8). apply Z.log2_le_mono. lia. }
  assert (HL29 : Z.log2 N < 30) by (apply Z.log2_lt_pow2; lia).
  pose proof (Z.log2_spec N ltac:(lia)) as Hspec.
  assert (HP30 : 2 ^ (Z.log2 N + 1) <= 2 ^ 30) by (apply pow2_le; lia).
  change (2 ^ 30) with 1073741824 in *.
  replace (8 <=? N) with true by (symmetry; apply Z.leb_le; lia).
  rewrite (wrap_small (B + N)) by (unfold uptr_modulus; lia).
  rewrite fill_loop_never_leaves;
    [reflexivity | lia | lia | unfold uptr_modulus; lia | lia | | vm_compute; lia].
  intros j Hj.
  destruct (Z.lt_ge_cases j (Z.log2 N)) as [Hlt | Hge].
  - left. apply Z.le_trans with (2 ^ Z.log2 N); [apply pow2_le; lia | lia].
  - right. apply Z.lt_le_trans with (2 ^ (Z.log2 N + 1)); [exact Hlow | apply pow2_le; lia].
Qed.

(** A mapping with the shadow at offset 0. *)
Lemma FastPoisonShadow_zero_low_shadow_undefined_witness :
  FastPoisonShadow
    {| ASAN_SHADOW_SCALE := 3; ASAN_SHADOW_OFFSET := 0;
       SANITIZER_DEBUG := false; poison_partial := true |}
    clean_state 64 128 0 = Undefined.
Proof.
  apply (FastPoisonShadow_zero_low_shadow_undefined
           {| ASAN_SHADOW_SCALE := 3; ASAN_SHADOW_OFFSET := 0;
              SANITIZER_DEBUG := false; poison_partial := true |}
           clean_state 64 128); sample_side.
Defined.

(** ** The whole effect of FastPoisonShadowPartialRightRedzone *)

(** The loop entered at offset [i] with pointer [sh], in closed form: the
    byte at distance [j] above [sh] is the byte of offset [i + j G] as long
    as that offset is below [redzone_size], and is untouched otherwise. *)
Lemma redzone_loop_closed (cfg : config) (size redzone_size value : Z) :
  mapping_ok cfg ->
  redzone_size + ASAN_SHADOW_GRANULARITY cfg <= uptr_modulus ->
  forall (fuel : nat) (i sh : Z) (m : shadow_mem),
    0 <= i ->
    redzone_size - i <= Z.of_nat fuel * ASAN_SHADOW_GRANULARITY cfg ->
    exists m',
      redzone_loop cfg fuel m sh i size redzone_size value = Done m' /\
      forall a,
        m' a = if wrap (a - sh) * ASAN_SHADOW_GRANULARITY cfg <? redzone_size - i
               then to_u8 (redzone_byte cfg
                             (i + wrap (a - sh) * ASAN_SHADOW_GRANULARITY cfg) size value)
               else m a.
Proof.
  intros Hmap Hfit.
  pose proof (granularity_bounds cfg Hmap) as HG.
  set (G := ASAN_SHADOW_GRANULARITY cfg) in *.
  induction fuel as [|fuel IH]; intros i sh m Hi Hfuel.
  - exists m. cbn [redzone_loop].
    replace (i <? redzone_size) with false by (symmetry; apply Z.ltb_ge; lia).
    split; [reflexivity|]. intros a.
    pose proof (wrap_range (a - sh)) as Hw.
    replace (wrap (a - sh) * G <? redzone_size - i) with false
      by (symmetry; apply Z.ltb_ge; nia).
    reflexivity.
  - cbn [redzone_loop]. fold G.
    destruct (Z.ltb_spec i redzone_size) as [Hin | Hout].
    + rewrite (wrap_small (i + G)) by lia.
      destruct (IH (i + G) (wrap (sh + 1)) (store m sh (redzone_byte cfg i size value))
                   ltac:(lia) ltac:(lia)) as (m' & Erun & Hm').
      exists m'. split; [exact Erun|]. intros a. rewrite Hm'.
      pose proof (wrap_range (a - sh)) as Hw.
      destruct (Z.eq_dec (wrap (a - sh)) 0) as [E0 | En0].
      * assert (E1 : wrap (a - wrap (sh + 1)) = uptr_modulus - 1) by unwrap.
        rewrite E1, E0.
        replace ((uptr_modulus - 1) * G <? redzone_size - (i + G)) with false
          by (symmetry; apply Z.ltb_ge; unfold uptr_modulus in *; nia).
        replace (0 * G <? redzone_size - i) with true
          by (symmetry; apply Z.ltb_lt; lia).
        unfold store. rewrite E0. cbn [Z.eqb]. do 2 f_equal. lia.
      * assert (E1 : wrap (a - wrap (sh + 1)) = wrap (a - sh) - 1) by unwrap.
        rewrite E1.
        set (j := wrap (a - sh)) in *.
        replace ((j - 1) * G <? redzone_size - (i + G)) with (j * G <? redzone_size - i).
        -- destruct (j * G <? redzone_size - i).
           ++ do 2 f_equal. lia.
           ++ unfold store. fold j.
              replace (j =? 0) with false by (symmetry; apply Z.eqb_neq; exact En0).
              reflexivity.
        -- destruct (Z.ltb_spec (j * G) (redzone_size - i));
             symmetry; [apply Z.ltb_lt | apply Z.ltb_ge]; lia.
    + exists m. split; [reflexivity|]. intros a.
      pose proof (wrap_range (a - sh)) as Hw.
      replace (wrap (a - sh) * G <? redzone_size - i) with false
        by (symmetry; apply Z.ltb_ge; nia).
      reflexivity.
Qed.

(** What a call leaves in every shadow byte. *)
Lemma PartialRightRedzone_spec
    (cfg : config) (fuel : nat) (st : state) (aligned_addr size redzone_size value : Z) :
  mapping_ok cfg -> ASAN_SHADOW_SCALE cfg <= 8 ->
  0 <= redzone_size ->
  redzone_size + ASAN_SHADOW_GRANULARITY cfg <= uptr_modulus ->
  0 <= value <= 255 ->
  check_passes cfg (CanPoisonMemory st) ->
  redzone_size <= Z.of_nat fuel * ASAN_SHADOW_GRANULARITY cfg ->
  exists st',
    FastPoisonShadowPartialRightRedzone cfg fuel st aligned_addr size redzone_size value
      = Done st' /\
    can_poison_memory st' = can_poison_memory st /\
    forall a,
      shadow st' a
      = if wrap (a - MEM_TO_SHADOW cfg aligned_addr) * ASAN_SHADOW_GRANULARITY cfg
           <? redzone_size
        then redzone_class cfg
               (wrap (a - MEM_TO_SHADOW cfg aligned_addr) * ASAN_SHADOW_GRANULARITY cfg)
               size value
        else shadow st a.
Proof.
  intros Hmap H8 Hrs Hfit Hv Hc Hfuel.
  pose proof (granularity_bounds cfg Hmap) as HG.
  unfold FastPoisonShadowPartialRightRedzone. rewrite DCHECK_pass by exact Hc.
  destruct (redzone_loop_closed cfg size redzone_size value Hmap Hfit fuel 0
              (MEM_TO_SHADOW cfg aligned_addr) (shadow st) ltac:(lia) ltac:(lia))
    as (m' & Erun & Hm').
  rewrite Erun. cbn [bind]. eexists. split; [reflexivity|]. split; [reflexivity|].
  intros a. cbn [shadow set_shadow]. rewrite Hm', Z.sub_0_r, Z.add_0_l.
  pose proof (wrap_range (a - MEM_TO_SHADOW cfg aligned_addr)) as Hw.
  destruct (Z.ltb_spec (wrap (a - MEM_TO_SHADOW cfg aligned_addr)
                        * ASAN_SHADOW_GRANULARITY cfg) redzone_size) as [Hin | Hout];
    [|reflexivity].
  apply redzone_byte_class; try assumption; [nia | apply Z.mod_mul; lia | lia].
Qed.

(** X10. A call of FastPoisonShadowPartialRightRedzone writes the
    [ceil(redzone_size / G)] shadow bytes from [MEM_TO_SHADOW(aligned_addr)]
    upwards and nothing else: every shadow byte beyond them is as before, and
    so is the poisoning toggle. *)
Theorem PartialRightRedzone_frame
    (cfg : config) (fuel : nat) (st : state) (aligned_addr size redzone_size value : Z) :
  mapping_ok cfg -> ASAN_SHADOW_SCALE cfg <= 8 ->
  0 <= redzone_size ->
  redzone_size + ASAN_SHADOW_GRANULARITY cfg <= uptr_modulus ->
  0 <= value <= 255 ->
  check_passes cfg (CanPoisonMemory st) ->
  redzone_size <= Z.of_nat fuel * ASAN_SHADOW_GRANULARITY cfg ->
  exists st',
    FastPoisonShadowPartialRightRedzone cfg fuel st aligned_addr size redzone_size value
      = Done st' /\
    CanPoisonMemory st' = CanPoisonMemory st /\
    forall a,
      (redzone_size + ASAN_SHADOW_GRANULARITY cfg - 1) / ASAN_SHADOW_GRANULARITY cfg
        <= wrap (a - MEM_TO_SHADOW cfg aligned_addr) ->
      shadow st' a = shadow st a.
Proof.
  intros Hmap H8 Hrs Hfit Hv Hc Hfuel.
  pose proof (granularity_bounds cfg Hmap) as HG.
  destruct (PartialRightRedzone_spec cfg fuel st aligned_addr size redzone_size value
              Hmap H8 Hrs Hfit Hv Hc Hfuel) as (st' & Erun & Ht & Hm).
  exists st'. split; [exact Erun|]. split; [exact Ht|].
  intros a Ha. rewrite Hm.
  set (G := ASAN_SHADOW_GRANULARITY cfg) in *.
  pose proof (Z.mul_succ_div_gt (redzone_size + G - 1) G ltac:(lia)) as Hk.
  replace (wrap (a - MEM_TO_SHADOW cfg aligned_addr) * G <? redzone_size) with false
    by (symmetry; apply Z.ltb_ge; nia).
  reflexivity.
Qed.

Lemma PartialRightRedzone_frame_witness :
  exists st',
    FastPoisonShadowPartialRightRedzone (linux_x86_64 true true) 4 poisoned_state
      heap_addr 13 29 250 = Done st' /\
    CanPoisonMemory st' = CanPoisonMemory poisoned_state /\
    forall a,
      (29 + ASAN_SHADOW_GRANULARITY (linux_x86_64 true true) - 1)
        / ASAN_SHADOW_GRANULARITY (linux_x86_64 true true)
        <= wrap (a - MEM_TO_SHADOW (linux_x86_64 true true) heap_addr) ->
      shadow st' a = shadow poisoned_state a.
Proof.
  apply (PartialRightRedzone_frame (linux_x86_64 true true) 4 poisoned_state
           heap_addr 13 29 250); sample_side.
Defined.

(** X11. When [size] is a multiple of the granule size no granule straddles
    the end of the live bytes: every granule below [size] gets 0 and every
    granule from [size] on gets the tag ([0xff] for [G = 128]), whatever
    [poison_partial] says. *)
Theorem PartialRightRedzone_aligned_size
    (cfg : config) (fuel : nat) (st : state) (aligned_addr size redzone_size value : Z) :
  mapping_ok cfg -> ASAN_SHADOW_SCALE cfg <= 8 ->
  0 <= redzone_size ->
  redzone_size + ASAN_SHADOW_GRANULARITY cfg <= uptr_modulus ->
  0 <= value <= 255 ->
  check_passes cfg (CanPoisonMemory st) ->
  redzone_size <= Z.of_nat fuel * ASAN_SHADOW_GRANULARITY cfg ->
  size mod ASAN_SHADOW_GRANULARITY cfg = 0 ->
  exists st',
    FastPoisonShadowPartialRightRedzone cfg fuel st aligned_addr size redzone_size value
      = Done st' /\
    forall i, 0 <= i < redzone_size -> i mod ASAN_SHADOW_GRANULARITY cfg = 0 ->
      shadow st' (wrap (MEM_TO_SHADOW cfg aligned_addr + i / ASAN_SHADOW_GRANULARITY cfg))
      = if i <? size then 0
        else if ASAN_SHADOW_GRANULARITY cfg =? 128 then 255 else value.
Proof.
  intros Hmap H8 Hrs Hfit Hv Hc Hfuel Hsz.
  pose proof (granularity_bounds cfg Hmap) as HG.
  destruct (PartialRightRedzone_run cfg fuel st aligned_addr size redzone_size value
              Hmap H8 Hrs Hfit Hv Hc Hfuel) as (st' & Erun & Hbytes).
  exists st'. split; [exact Erun|].
  intros i Hi Hal. rewrite (Hbytes i Hi Hal). unfold redzone_class.
  apply Z.div_exact in Hsz; [|lia]. apply Z.div_exact in Hal; [|lia].
  set (G := ASAN_SHADOW_GRANULARITY cfg) in *.
  set (p := size / G) in *. set (q := i / G) in *.
  destruct (Z.ltb_spec i size) as [Hlt | Hge].
  - assert (q < p) by nia.
    replace (i + G <=? size) with true by (symmetry; apply Z.leb_le; nia).
    reflexivity.
  - replace (i + G <=? size) with false by (symmetry; apply Z.leb_gt; lia).
    replace (size <=? i) with true by (symmetry; apply Z.leb_le; lia).
    reflexivity.
Qed.

Lemma PartialRightRedzone_aligned_size_witness :
  exists st',
    FastPoisonShadowPartialRightRedzone (linux_x86_64 true true) 4 clean_state
      heap_addr 16 32 250 = Done st' /\
    forall i, 0 <= i < 32 -> i mod ASAN_SHADOW_GRANULARITY (linux_x86_64 true true) = 0 ->
      shadow st' (wrap (MEM_TO_SHADOW (linux_x86_64 true true) heap_addr
                        + i / ASAN_SHADOW_GRANULARITY (linux_x86_64 true true)))
      = if i <? 16 then 0
        else if ASAN_SHADOW_GRANULARITY (linux_x86_64 true true) =? 128 then 255 else 250.
Proof.
  apply (PartialRightRedzone_aligned_size (linux_x86_64 true true) 4 clean_state
           heap_addr 16 32 250); sample_side.
Defined.

(** X12. The bytes FastPoisonShadowPartialRightRedzone writes through its
    running pointer are the shadow bytes of the addresses it walks over: for
    an aligned [aligned_addr] and every address [x] of
    [[aligned_addr, aligned_addr + redzone_size)], the byte at
    [MEM_TO_SHADOW(x)] is the one decided for the granule of [x]. *)
Theorem PartialRightRedzone_by_address
    (cfg : config) (fuel : nat) (st : state) (aligned_addr size redzone_size value x : Z) :
  mapping_ok cfg -> ASAN_SHADOW_SCALE cfg <= 8 ->
  0 <= aligned_addr -> granule_aligned cfg aligned_addr ->
  0 <= redzone_size ->
  redzone_size + ASAN_SHADOW_GRANULARITY cfg <= uptr_modulus ->
  0 <= value <= 255 ->
  check_passes cfg (CanPoisonMemory st) ->
  redzone_size <= Z.of_nat fuel * ASAN_SHADOW_GRANULARITY cfg ->
  aligned_addr <= x < aligned_addr + redzone_size ->
  exists st',
    FastPoisonShadowPartialRightRedzone cfg fuel st aligned_addr size redzone_size value
      = Done st' /\
    shadow st' (MEM_TO_SHADOW cfg x)
    = redzone_class cfg
        ((x - aligned_addr) / ASAN_SHADOW_GRANULARITY cfg * ASAN_SHADOW_GRANULARITY cfg)
        size value.
Proof.
  intros Hmap H8 Ha0 Hal Hrs Hfit Hv Hc Hfuel Hx.
  pose proof (granularity_bounds cfg Hmap) as HG.
  destruct (PartialRightRedzone_spec cfg fuel st aligned_addr size redzone_size value
              Hmap H8 Hrs Hfit Hv Hc Hfuel) as (st' & Erun & _ & Hm).
  exists st'. split; [exact Erun|].
  rewrite Hm.
  assert (Ej : wrap (MEM_TO_SHADOW cfg x - MEM_TO_SHADOW cfg aligned_addr)
               = (x - aligned_addr) / ASAN_SHADOW_GRANULARITY cfg).
  { rewrite !(MEM_TO_SHADOW_div cfg Hmap), wrap_wrap_sub_l, wrap_wrap_sub_r.
    pose proof (aligned_multiple cfg Hmap aligned_addr Hal) as Eb.
    set (G := ASAN_SHADOW_GRANULARITY cfg) in *.
    set (b := aligned_addr / G) in *.
    assert (Ex : x / G = (x - aligned_addr) / G + b).
    { rewrite <- Z.div_add by lia. f_equal. lia. }
    assert (Hq0 : 0 <= (x - aligned_addr) / G) by (apply Z.div_pos; lia).
    assert (Hq1 : (x - aligned_addr) / G <= x - aligned_addr)
      by (apply Z.div_le_upper_bound; nia).
    rewrite Ex.
    replace ((x - aligned_addr) / G + b + ASAN_SHADOW_OFFSET cfg
             - (b + ASAN_SHADOW_OFFSET cfg))
      with ((x - aligned_addr) / G) by lia.
    apply wrap_small. lia. }
  rewrite Ej.
  pose proof (Z.mul_div_le (x - aligned_addr) (ASAN_SHADOW_GRANULARITY cfg) ltac:(lia)) as Hle.
  replace ((x - aligned_addr) / ASAN_SHADOW_GRANULARITY cfg * ASAN_SHADOW_GRANULARITY cfg
           <? redzone_size)
    with true by (symmetry; apply Z.ltb_lt; lia).
  reflexivity.
Qed.

Lemma PartialRightRedzone_by_address_witness :
  exists st',
    FastPoisonShadowPartialRightRedzone (linux_x86_64 true true) 4 clean_state
      heap_addr 13 29 250 = Done st' /\
    shadow st' (MEM_TO_SHADOW (linux_x86_64 true true) (heap_addr + 12))
    = redzone_class (linux_x86_64 true true)
        ((heap_addr + 12 - heap_addr) / ASAN_SHADOW_GRANULARITY (linux_x86_64 true true)
         * ASAN_SHADOW_GRANULARITY (linux_x86_64 true true))
        13 250.
Proof.
  apply (PartialRightRedzone_by_address (linux_x86_64 true true) 4 clean_state
           heap_addr 13 29 250 (heap_addr + 12)); sample_side.
Defined.

(** ** FastPoisonShadowPartialRightRedzone called twice, and never ending *)

Lemma redzone_loop_oblivious (cfg : config) (size redzone_size value : Z) (fuel : nat) :
  forall (sh i : Z) (g : shadow_mem -> shadow_mem),
    overwrites g ->
    oblivious (fun m => redzone_loop cfg fuel (g m) sh i size redzone_size value).
Proof.
  induction fuel as [|fuel IH]; intros sh i g Hg; cbn [redzone_loop];
    destruct (i <? redzone_size).
  - right. right. right. reflexivity.
  - left. exists g. split; [exact Hg | reflexivity].
  - apply (IH _ _ (fun m => store (g m) sh (redzone_byte cfg i size value))).
    apply overwrites_store. exact Hg.
  - left. exists g. split; [exact Hg | reflexivity].
Qed.

(** X13. FastPoisonShadowPartialRightRedzone called twice in succession with
    the same arguments ends as a single call does and, after a normal ending,
    leaves the toggle and every shadow byte as the single call leaves them,
    for all arguments and in every state. *)
Theorem PartialRightRedzone_idempotent
    (cfg : config) (fuel : nat) (st : state) (aligned_addr size redzone_size value : Z) :
  outcome_eq
    (st' <- FastPoisonShadowPartialRightRedzone cfg fuel st
              aligned_addr size redzone_size value ;;
     FastPoisonShadowPartialRightRedzone cfg fuel st' aligned_addr size redzone_size value)
    (FastPoisonShadowPartialRightRedzone cfg fuel st aligned_addr size redzone_size value).
Proof.
  unfold FastPoisonShadowPartialRightRedzone at 1 3. unfold DCHECK.
  destruct (SANITIZER_DEBUG cfg && negb (CanPoisonMemory st)) eqn:Echk; [exact I|].
  destruct (redzone_loop_oblivious cfg size redzone_size value fuel
              (MEM_TO_SHADOW cfg aligned_addr) 0 (fun m => m) overwrites_id)
    as [(f & Hf & Hrun) | [Hrun | [Hrun | Hrun]]];
    rewrite (Hrun (shadow st)); cbn [bind]; try exact I.
  unfold FastPoisonShadowPartialRightRedzone, DCHECK.
  change (CanPoisonMemory (set_shadow st (f (shadow st)))) with (CanPoisonMemory st).
  rewrite Echk. cbn [shadow set_shadow]. rewrite Hrun. cbn [bind outcome_eq].
  split; [reflexivity|]. cbn [shadow set_shadow]. apply overwrites_twice. exact Hf.
Qed.

(** X14. When [redzone_size] is within one granule of [2^64] the counter
    [i] of FastPoisonShadowPartialRightRedzone wraps round to 0 before it
    reaches [redzone_size]: the loop has no last pass, and the call does not
    return however many passes it is given. *)
Theorem PartialRightRedzone_never_ends
    (cfg : config) (fuel : nat) (st : state) (aligned_addr size redzone_size value : Z) :
  mapping_ok cfg ->
  check_passes cfg (CanPoisonMemory st) ->
  uptr_modulus - ASAN_SHADOW_GRANULARITY cfg < redzone_size ->
  FastPoisonShadowPartialRightRedzone cfg fuel st aligned_addr size redzone_size value
  = OutOfFuel.
Proof.
  intros Hmap Hc Hbig.
  pose proof (granularity_bounds cfg Hmap) as HG.
  unfold FastPoisonShadowPartialRightRedzone. rewrite DCHECK_pass by exact Hc.
  rewrite redzone_loop_diverges; try assumption; [reflexivity | unfold uptr_modulus; lia |].
  apply Z.mod_0_l. lia.
Qed.

Lemma PartialRightRedzone_never_ends_witness :
  FastPoisonShadowPartialRightRedzone (linux_x86_64 true true) 1000 clean_state
    heap_addr 13 18446744073709551615 250
  = OutOfFuel.
Proof.
  apply (PartialRightRedzone_never_ends (linux_x86_64 true true) 1000 clean_state
           heap_addr 13 18446744073709551615 250); sample_side.
Defined.

(** ** The two functions side by side *)

(** X15. On a range with no live bytes ([size = 0]) the two functions reach
    the same shadow bytes but do not store the same byte: the redzone
    function stores the tag as it is, FastPoisonShadow moves the tags 1..7 to
    65..71. For tags from 8 on (and [G] other than 128) the two calls leave
    the same shadow. *)
Theorem PartialRightRedzone_versus_FastPoisonShadow
    (cfg : config) (fuel : nat) (st : state) (aligned_addr redzone_size value : Z) :
  mapping_ok cfg -> ASAN_SHADOW_SCALE cfg <= 8 ->
  ASAN_SHADOW_GRANULARITY cfg <> 128 ->
  aligned_range cfg aligned_addr redzone_size ->
  0 < redzone_size ->
  redzone_size + ASAN_SHADOW_GRANULARITY cfg <= uptr_modulus ->
  1 <= value <= 255 ->
  check_passes cfg (CanPoisonMemory st) ->
  redzone_size <= Z.of_nat fuel * ASAN_SHADOW_GRANULARITY cfg ->
  exists st1 st2,
    FastPoisonShadowPartialRightRedzone cfg fuel st aligned_addr 0 redzone_size value
      = Done st1 /\
    FastPoisonShadow cfg st aligned_addr redzone_size value = Done st2 /\
    (forall x, aligned_addr <= x < aligned_addr + redzone_size ->
       shadow st1 (MEM_TO_SHADOW cfg x) = value /\
       shadow st2 (MEM_TO_SHADOW cfg x) = if value <=? 7 then 72 - value else value) /\
    (forall a, granules cfg redzone_size <= wrap (a - MEM_TO_SHADOW cfg aligned_addr) ->
       shadow st1 a = shadow st a /\ shadow st2 a = shadow st a) /\
    (8 <= value -> mem_eq (shadow st1) (shadow st2)).
Proof.
  intros Hmap H8 H128 Hr Hpos Hfit Hv Hc Hfuel.
  pose proof (granularity_bounds cfg Hmap) as HG.
  pose proof (granules_range cfg Hmap redzone_size ltac:(apply Hr)) as HN.
  assert (Es : redzone_size = ASAN_SHADOW_GRANULARITY cfg * granules cfg redzone_size).
  { apply aligned_multiple; [exact Hmap | apply Hr]. }
  assert (Hne : ASAN_SHADOW_GRANULARITY cfg <= aligned_addr + redzone_size).
  { destruct Hr as (Hb & _). assert (0 < granules cfg redzone_size) by nia. nia. }
  destruct (PartialRightRedzone_spec cfg fuel st aligned_addr 0 redzone_size value
              Hmap H8 ltac:(lia) Hfit ltac:(lia) Hc Hfuel) as (st1 & E1 & _ & Hm1).
  destruct (FastPoisonShadow_spec cfg st aligned_addr redzone_size value
              Hmap Hr Hne ltac:(lia) (check_passes_tagged cfg _ value Hc)
              ltac:(left; lia)) as (st2 & E2 & _ & Hm2).
  exists st1, st2. split; [exact E1|]. split; [exact E2|].
  assert (Hdom : forall a,
            (wrap (a - MEM_TO_SHADOW cfg aligned_addr) * ASAN_SHADOW_GRANULARITY cfg
             <? redzone_size)
            = (wrap (a - MEM_TO_SHADOW cfg aligned_addr) <? granules cfg redzone_size)).
  { intros a. pose proof (wrap_range (a - MEM_TO_SHADOW cfg aligned_addr)) as Hw.
    set (j := wrap (a - MEM_TO_SHADOW cfg aligned_addr)) in *.
    set (G := ASAN_SHADOW_GRANULARITY cfg) in *.
    set (n := granules cfg redzone_size) in *.
    destruct (Z.ltb_spec j n); [apply Z.ltb_lt | apply Z.ltb_ge]; nia. }
  assert (Hcls : forall i, 0 <= i -> redzone_class cfg i 0 value = value).
  { intros i Hi. unfold redzone_class.
    replace (i + ASAN_SHADOW_GRANULARITY cfg <=? 0) with false
      by (symmetry; apply Z.leb_gt; lia).
    replace (0 <=? i) with true by (symmetry; apply Z.leb_le; lia).
    replace (ASAN_SHADOW_GRANULARITY cfg =? 128) with false
      by (symmetry; apply Z.eqb_neq; exact H128).
    reflexivity. }
  assert (Hst : forall d, stored_byte value d = if value <=? 7 then 72 - value else value).
  { intros d. unfold stored_byte.
    replace (value =? 0) with false by (symmetry; apply Z.eqb_neq; lia). reflexivity. }
  split; [|split].
  - intros x Hx.
    pose proof (shadow_of_member cfg Hmap aligned_addr redzone_size x Hr Hx) as Hin.
    pose proof (wrap_range (MEM_TO_SHADOW cfg x - MEM_TO_SHADOW cfg aligned_addr)) as Hw.
    apply Z.ltb_lt in Hin.
    rewrite Hm1, Hm2, Hdom, Hin, Hst. split; [apply Hcls; nia | reflexivity].
  - intros a Ha. apply Z.ltb_ge in Ha.
    rewrite Hm1, Hm2, Hdom, Ha. split; reflexivity.
  - intros Hbig a.
    pose proof (wrap_range (a - MEM_TO_SHADOW cfg aligned_addr)) as Hw.
    rewrite Hm1, Hm2, Hdom, Hst.
    destruct (wrap (a - MEM_TO_SHADOW cfg aligned_addr) <? granules cfg redzone_size);
      [|reflexivity].
    rewrite Hcls by nia.
    replace (value <=? 7) with false by (symmetry; apply Z.leb_gt; lia). reflexivity.
Qed.

Lemma PartialRightRedzone_versus_FastPoisonShadow_witness :
  exists st1 st2,
    FastPoisonShadowPartialRightRedzone (linux_x86_64 true true) 4 clean_state
      heap_addr 0 32 3 = Done st1 /\
    FastPoisonShadow (linux_x86_64 true true) clean_state heap_addr 32 3 = Done st2 /\
    (forall x, heap_addr <= x < heap_addr + 32 ->
       shadow st1 (MEM_TO_SHADOW (linux_x86_64 true true) x) = 3 /\
       shadow st2 (MEM_TO_SHADOW (linux_x86_64 true true) x)
       = if 3 <=? 7 then 72 - 3 else 3) /\
    (forall a, granules (linux_x86_64 true true) 32
               <= wrap (a - MEM_TO_SHADOW (linux_x86_64 true true) heap_addr) ->
       shadow st1 a = shadow clean_state a /\ shadow st2 a = shadow clean_state a) /\
    (8 <= 3 -> mem_eq (shadow st1) (shadow st2)).
Proof.
  apply (PartialRightRedzone_versus_FastPoisonShadow (linux_x86_64 true true) 4 clean_state
           heap_addr 32 3); sample_side.
Defined.

(** ** Reading the gradient *)

Lemma shadow_offset_of_member (cfg : config) (beg size x : Z) :
  mapping_ok cfg ->
  aligned_range cfg beg size -> beg <= x < beg + size ->
  wrap (MEM_TO_SHADOW cfg x - MEM_TO_SHADOW cfg beg)
  = x / ASAN_SHADOW_GRANULARITY cfg - beg / ASAN_SHADOW_GRANULARITY cfg.
Proof.
  intros Hmap (Hb & Hs & Hfit & Hab & Has) Hx.
  pose proof (granularity_bounds cfg Hmap) as HG.
  rewrite !(MEM_TO_SHADOW_div cfg Hmap), wrap_wrap_sub_l, wrap_wrap_sub_r.
  pose proof (aligned_multiple cfg Hmap beg Hab) as Eb.
  set (G := ASAN_SHADOW_GRANULARITY cfg) in *.
  set (b := beg / G) in *.
  assert (Hlo : b <= x / G) by (apply Z.div_le_lower_bound; lia).
  assert (Hhi : x / G <= x) by (apply Z.div_le_upper_bound; nia).
  assert (Hb0 : 0 <= b) by (apply Z.div_pos; lia).
  replace (x / G + ASAN_SHADOW_OFFSET cfg - (b + ASAN_SHADOW_OFFSET cfg))
    with (x / G - b) by lia.
  apply wrap_small. lia.
Qed.

(** X16. With value 0, on a range below [2^30] granules (shadow well placed)
    the bytes left do not decrease with the address: for addresses
    [x <= y] of the range the shadow byte of [x] is at most that of [y]. *)
Theorem FastPoisonShadow_zero_monotone
    (cfg : config) (st : state) (aligned_beg aligned_size x y : Z) :
  mapping_ok cfg ->
  aligned_range cfg aligned_beg aligned_size ->
  shadow_span_ok cfg aligned_beg aligned_size ->
  granules cfg aligned_size < 2 ^ 30 ->
  aligned_beg <= x -> x <= y -> y < aligned_beg + aligned_size ->
  exists st',
    FastPoisonShadow cfg st aligned_beg aligned_size 0 = Done st' /\
    shadow st' (MEM_TO_SHADOW cfg x) <= shadow st' (MEM_TO_SHADOW cfg y).
Proof.
  intros Hmap Hr Hspan H30 Hbx Hxy Hy.
  pose proof (granularity_bounds cfg Hmap) as HG.
  assert (Hne : ASAN_SHADOW_GRANULARITY cfg <= aligned_beg + aligned_size).
  { destruct Hr as (Hb & Hs & _ & _ & Has).
    pose proof (aligned_multiple cfg Hmap aligned_size Has) as Es.
    assert (0 < aligned_size / ASAN_SHADOW_GRANULARITY cfg) by nia. nia. }
  destruct (FastPoisonShadow_spec cfg st aligned_beg aligned_size 0
              Hmap Hr Hne ltac:(lia) ltac:(apply check_passes_zero)
              ltac:(right; right; split; assumption)) as (st' & Erun & _ & Hm).
  exists st'. split; [exact Erun|].
  pose proof (shadow_of_member cfg Hmap aligned_beg aligned_size x Hr ltac:(lia)) as Hinx.
  pose proof (shadow_of_member cfg Hmap aligned_beg aligned_size y Hr ltac:(lia)) as Hiny.
  pose proof (shadow_offset_of_member cfg aligned_beg aligned_size x Hmap Hr ltac:(lia)) as Ex.
  pose proof (shadow_offset_of_member cfg aligned_beg aligned_size y Hmap Hr ltac:(lia)) as Ey.
  assert (Hmono : x / ASAN_SHADOW_GRANULARITY cfg <= y / ASAN_SHADOW_GRANULARITY cfg)
    by (apply Z.div_le_mono; lia).
  rewrite !Hm.
  replace (wrap (MEM_TO_SHADOW cfg x - MEM_TO_SHADOW cfg aligned_beg)
           <? granules cfg aligned_size) with true by (symmetry; apply Z.ltb_lt; exact Hinx).
  replace (wrap (MEM_TO_SHADOW cfg y - MEM_TO_SHADOW cfg aligned_beg)
           <? granules cfg aligned_size) with true by (symmetry; apply Z.ltb_lt; exact Hiny).
  unfold stored_byte. cbn [Z.eqb].
  assert (Hlog : Z.log2 (granules cfg aligned_size
                         - wrap (MEM_TO_SHADOW cfg y - MEM_TO_SHADOW cfg aligned_beg))
                 <= Z.log2 (granules cfg aligned_size
                            - wrap (MEM_TO_SHADOW cfg x - MEM_TO_SHADOW cfg aligned_beg)))
    by (apply Z.log2_le_mono; lia).
  lia.
Qed.

Lemma FastPoisonShadow_zero_monotone_witness :
  exists st',
    FastPoisonShadow (linux_x86_64 true true) poisoned_state heap_addr 160 0 = Done st' /\
    shadow st' (MEM_TO_SHADOW (linux_x86_64 true true) (heap_addr + 7))
    <= shadow st' (MEM_TO_SHADOW (linux_x86_64 true true) (heap_addr + 100)).
Proof.
  apply (FastPoisonShadow_zero_monotone (linux_x86_64 true true) poisoned_state
           heap_addr 160 (heap_addr + 7) (heap_addr + 100)); sample_side.
Defined.

(** X17. With value 0, the byte left in a shadow byte tells how far the end
    of the range is, up to a factor of two: if the [k]-th shadow byte of a
    range of [N] granules holds [v], then [2^(64 - v) <= N - k < 2^(65 - v)]. *)
Theorem FastPoisonShadow_zero_byte_gives_distance
    (cfg : config) (st : state) (aligned_beg aligned_size k : Z) :
  mapping_ok cfg ->
  aligned_range cfg aligned_beg aligned_size ->
  shadow_span_ok cfg aligned_beg aligned_size ->
  granules cfg aligned_size < 2 ^ 30 ->
  0 <= k < granules cfg aligned_size ->
  exists st',
    FastPoisonShadow cfg st aligned_beg aligned_size 0 = Done st' /\
    2 ^ (64 - shadow st' (wrap (MEM_TO_SHADOW cfg aligned_beg + k)))
      <= granules cfg aligned_size - k
      < 2 ^ (65 - shadow st' (wrap (MEM_TO_SHADOW cfg aligned_beg + k))).
Proof.
  intros Hmap Hr Hspan H30 Hk.
  pose proof (granularity_bounds cfg Hmap) as HG.
  pose proof (granules_range cfg Hmap aligned_size ltac:(apply Hr)) as HN.
  assert (Hne : ASAN_SHADOW_GRANULARITY cfg <= aligned_beg + aligned_size).
  { destruct Hr as (Hb & Hs & _ & _ & Has).
    pose proof (aligned_multiple cfg Hmap aligned_size Has) as Es.
    unfold granules in Hk. nia. }
  destruct (FastPoisonShadow_spec cfg st aligned_beg aligned_size 0
              Hmap Hr Hne ltac:(lia) ltac:(apply check_passes_zero)
              ltac:(right; right; split; assumption)) as (st' & Erun & _ & Hm).
  exists st'. split; [exact Erun|].
  rewrite Hm, wrap_wrap_sub_l.
  replace (MEM_TO_SHADOW cfg aligned_beg + k - MEM_TO_SHADOW cfg aligned_beg) with k by lia.
  rewrite (wrap_small k) by lia.
  replace (k <? granules cfg aligned_size) with true by (symmetry; apply Z.ltb_lt; lia).
  unfold stored_byte. cbn [Z.eqb].
  pose proof (Z.log2_spec (granules cfg aligned_size - k) ltac:(lia)) as Hspec.
  replace (64 - (64 - Z.log2 (granules cfg aligned_size - k)))
    with (Z.log2 (granules cfg aligned_size - k)) by lia.
  replace (65 - (64 - Z.log2 (granules cfg aligned_size - k)))
    with (Z.succ (Z.log2 (granules cfg aligned_size - k))) by lia.
  exact Hspec.
Qed.

Lemma FastPoisonShadow_zero_byte_gives_distance_witness :
  exists st',
    FastPoisonShadow (linux_x86_64 true true) clean_state heap_addr 160 0 = Done st' /\
    2 ^ (64 - shadow st' (wrap (MEM_TO_SHADOW (linux_x86_64 true true) heap_addr + 5)))
      <= granules (linux_x86_64 true true) 160 - 5
      < 2 ^ (65 - shadow st' (wrap (MEM_TO_SHADOW (linux_x86_64 true true) heap_addr + 5))).
Proof.
  apply (FastPoisonShadow_zero_byte_gives_distance (linux_x86_64 true true) clean_state
           heap_addr 160 5); sample_side.
Defined.

(** ** The bytes the zero branch writes *)

Lemma kept_refl (lo hi : Z) (m0 : shadow_mem) : kept_or_within lo hi m0 m0.
Proof. intros a. left. reflexivity. Qed.

Lemma kept_memset (lo hi : Z) (m0 m : shadow_mem) (p c n : Z) :
  kept_or_within lo hi m0 m -> lo <= to_u8 c <= hi ->
  kept_or_within lo hi m0 (memset m p c n).
Proof.
  intros Hk Hc a. unfold memset.
  destruct (wrap (a - p) <? n); [right; exact Hc | apply Hk].
Qed.

Lemma kept_store (lo hi : Z) (m0 m : shadow_mem) (p v : Z) :
  kept_or_within lo hi m0 m -> lo <= to_u8 v <= hi ->
  kept_or_within lo hi m0 (store m p v).
Proof.
  intros Hk Hv a. unfold store.
  destruct (wrap (a - p) =? 0); [right; exact Hv | apply Hk].
Qed.

(** The switch stores only 62, 63 and 64. *)
Lemma kept_tail_pattern (m0 : shadow_mem) (p N : Z) :
  kept_or_within 34 64 m0 (tail_pattern m0 p N).
Proof.
  destruct N as [|q|q];
    [ | destruct q as [[[q|q|]|[q|q|]|]|[[q|q|]|[q|q|]|]|] | ];
    cbn [tail_pattern];
    repeat (apply kept_store; [|vm_compute; intuition discriminate]);
    apply kept_refl.
Qed.

(** A pass that writes has [i <= 30] and writes [64 - i] only. *)
Lemma fill_step_writes (m : shadow_mem) (B E i : Z) :
  3 <= i <= 31 ->
  match fill_step m B E i with
  | Break m' | Continue m' =>
      i <= 30 /\ exists p n, m' = memset m p (wrap (64 - i)) n
  | StepUndefined => True
  end.
Proof.
  intros Hi. unfold fill_step.
  rewrite (wrap_small (i + 1)) by (unfold uptr_modulus; lia).
  destruct (Z.eq_dec i 31) as [-> | Hne].
  - rewrite shl_int_one_undefined by lia. exact I.
  - destruct (shl_int 1 (i + 1)) as [s1|]; [|exact I].
    destruct (wrap (wrap (E - int_to_uptr s1) + 1) <=? B);
      destruct (shl_int 1 i) as [s0|]; try exact I;
      (split; [lia | eexists; eexists; reflexivity]).
Qed.

Lemma pass_value_bounds (i : Z) : 3 <= i <= 30 -> 34 <= to_u8 (wrap (64 - i)) <= 64.
Proof.
  intros Hi. rewrite to_u8_wrap, to_u8_small; lia.
Qed.

Lemma fill_loop_kept (m0 : shadow_mem) (B E : Z) (fuel : nat) :
  forall (i : Z) (m m' : shadow_mem),
    3 <= i <= 31 -> kept_or_within 34 64 m0 m ->
    fill_loop fuel m B E i = Done m' -> kept_or_within 34 64 m0 m'.
Proof.
  induction fuel as [|fuel IH]; intros i m m' Hi Hk Hrun; [discriminate|].
  cbn [fill_loop] in Hrun.
  pose proof (fill_step_writes m B E i Hi) as Hw.
  destruct (fill_step m B E i) as [m1 | m1 |]; try discriminate.
  - destruct Hw as (Hi30 & p & n & ->). injection Hrun as <-.
    apply kept_memset; [exact Hk | apply pass_value_bounds; lia].
  - destruct Hw as (Hi30 & p & n & ->).
    rewrite (wrap_small (i + 1)) in Hrun by (unfold uptr_modulus; lia).
    apply (IH (i + 1) _ m' ltac:(lia)) in Hrun; [exact Hrun|].
    apply kept_memset; [exact Hk | apply pass_value_bounds; lia].
Qed.

Lemma fill_passes_kept (m0 : shadow_mem) (B E : Z) (n : nat) :
  forall (i : Z) (m m' : shadow_mem),
    3 <= i <= 31 -> kept_or_within 34 64 m0 m ->
    fill_passes n m B E i = Some m' -> kept_or_within 34 64 m0 m'.
Proof.
  induction n as [|n IH]; intros i m m' Hi Hk Hrun; cbn [fill_passes] in Hrun.
  - injection Hrun as <-. exact Hk.
  - pose proof (fill_step_writes m B E i Hi) as Hw.
    destruct (fill_step m B E i) as [m1 | m1 |]; try discriminate.
    destruct Hw as (Hi30 & p & k & ->).
    rewrite (wrap_small (i + 1)) in Hrun by (unfold uptr_modulus; lia).
    apply (IH (i + 1) _ m' ltac:(lia)) in Hrun; [exact Hrun|].
    apply kept_memset; [exact Hk | apply pass_value_bounds; lia].
Qed.

Lemma FastPoisonShadow_zero_kept
    (cfg : config) (st st' : state) (aligned_beg aligned_size : Z) :
  FastPoisonShadow cfg st aligned_beg aligned_size 0 = Done st' ->
  kept_or_within 34 64 (shadow st) (shadow st').
Proof.
  rewrite FastPoisonShadow_writes. unfold DCHECK, poison_writes.
  change (0 =? 0) with true. cbn [orb negb]. rewrite andb_false_r.
  destruct (8 <=? _).
  - destruct (fill_loop _ _ _ _ _) as [m2| | |] eqn:Eloop; cbn [bind]; try discriminate.
    intros H. injection H as <-. cbn [shadow set_shadow].
    apply (fill_loop_kept (shadow st) _ _ _ 3 _ m2 ltac:(lia) (kept_tail_pattern _ _ _) Eloop).
  - cbn [bind]. intros H. injection H as <-. cbn [shadow set_shadow].
    apply kept_tail_pattern.
Qed.

(** C10. With value 0, every shadow byte FastPoisonShadow writes is nonzero
    and lies in [1, 64]; the operation never stores the byte 0. This holds of
    every byte that differs from the old one after a call that ends normally,
    on any range; of every byte written by the switch and by any number of
    passes of the loop, hence also on the ranges of [2^30] granules and more
    where the [int] shift stops the call (the index [i] never passes 31, far
    below 64); and on a non-empty range below [2^30] granules with a well
    placed shadow the call does end normally and every shadow byte of the
    range is written with a byte in [1, 64]. *)
Theorem FastPoisonShadow_zero_writes_in_1_64 :
  (forall (cfg : config) (st st' : state) (aligned_beg aligned_size : Z),
     FastPoisonShadow cfg st aligned_beg aligned_size 0 = Done st' ->
     forall a, shadow st' a = shadow st a \/ 1 <= shadow st' a <= 64) /\
  (forall (m0 m : shadow_mem) (shadow_beg shadow_end N : Z) (n : nat),
     fill_passes n (tail_pattern m0 shadow_end N) shadow_beg shadow_end 3 = Some m ->
     forall a, m a = m0 a \/ 1 <= m a <= 64) /\
  (forall (cfg : config) (st : state) (aligned_beg aligned_size : Z),
     mapping_ok cfg ->
     aligned_range cfg aligned_beg aligned_size ->
     shadow_span_ok cfg aligned_beg aligned_size ->
     0 < aligned_size ->
     granules cfg aligned_size < 2 ^ 30 ->
     exists st',
       FastPoisonShadow cfg st aligned_beg aligned_size 0 = Done st' /\
       forall x, aligned_beg <= x < aligned_beg + aligned_size ->
         1 <= shadow st' (MEM_TO_SHADOW cfg x) <= 64).
Proof.
  split; [|split].
  - intros cfg st st' aligned_beg aligned_size Hrun a.
    destruct (FastPoisonShadow_zero_kept cfg st st' aligned_beg aligned_size Hrun a)
      as [H | H]; [left; exact H | right; lia].
  - intros m0 m shadow_beg shadow_end N n Hrun a.
    destruct (fill_passes_kept m0 shadow_beg shadow_end n 3 _ m ltac:(lia)
                (kept_tail_pattern m0 shadow_end N) Hrun a) as [H | H];
      [left; exact H | right; lia].
  - intros cfg st aligned_beg aligned_size Hmap Hr Hspan Hpos H30.
    pose proof (granularity_bounds cfg Hmap) as HG.
    assert (Hne : ASAN_SHADOW_GRANULARITY cfg <= aligned_beg + aligned_size).
    { destruct Hr as (Hb & _ & _ & _ & Has).
      pose proof (aligned_multiple cfg Hmap aligned_size Has) as Es.
      assert (0 < aligned_size / ASAN_SHADOW_GRANULARITY cfg) by nia. nia. }
    destruct (FastPoisonShadow_spec cfg st aligned_beg aligned_size 0
                Hmap Hr Hne ltac:(lia) ltac:(apply check_passes_zero)
                ltac:(right; right; split; assumption)) as (st' & Erun & _ & Hm).
    exists st'. split; [exact Erun|].
    intros x Hx. rewrite Hm.
    pose proof (shadow_of_member cfg Hmap aligned_beg aligned_size x Hr Hx) as Hin.
    pose proof (wrap_range (MEM_TO_SHADOW cfg x - MEM_TO_SHADOW cfg aligned_beg)) as Hw.
    replace (wrap (MEM_TO_SHADOW cfg x - MEM_TO_SHADOW cfg aligned_beg)
             <? granules cfg aligned_size)
      with true by (symmetry; apply Z.ltb_lt; exact Hin).
    unfold stored_byte. cbn [Z.eqb].
    pose proof (gradient_bounds
                  (granules cfg aligned_size
                   - wrap (MEM_TO_SHADOW cfg x - MEM_TO_SHADOW cfg aligned_beg))
                  ltac:(lia)) as Hg.
    unfold gradient in Hg. lia.
Qed.

Lemma FastPoisonShadow_zero_writes_in_1_64_witness :
  exists st',
    FastPoisonShadow (linux_x86_64 true true) poisoned_state heap_addr 160 0 = Done st' /\
    forall x, heap_addr <= x < heap_addr + 160 ->
      1 <= shadow st' (MEM_TO_SHADOW (linux_x86_64 true true) x) <= 64.
Proof.
  apply (proj2 (proj2 FastPoisonShadow_zero_writes_in_1_64)
           (linux_x86_64 true true) poisoned_state heap_addr 160); sample_side.
Defined.
